(** * mcp-it (Fastify plugin): route registry, schema resolver, tool
    converter, route filter, session map and request dispatcher.

    A shallow embedding of the TypeScript sources, with the properties of
    the specification stated over it.

    Conventions of the embedding.
    - A JavaScript value of schema shape is a [value]: JSON data plus
      [undefined].  Numbers are the integers; strings are sequences of
      code units.  Objects are association lists in [Object.entries]
      order; a JavaScript object has no repeated key, and the statements
      that depend on it say so ([NoDup] of the keys).
    - Property access [v[k]] is [get]: own data properties only (object
      keys, array indices and [length], string indices and [length]).
      Where the key comes from the caller of a tool, in
      [prepareToolPayload], the members inherited from the prototypes are
      modelled as well ([has_member]); elsewhere they are outside the
      model.
    - A function that can throw or recurse without bound returns an
      [outcome]; unbounded recursion is made explicit by a fuel argument. *)

From Stdlib Require Import ZArith Ascii String.
From stdpp Require Import base option list strings pretty gmap.

Open Scope string_scope.
Open Scope list_scope.
Open Scope nat_scope.

(** ** JavaScript values *)

#[local] Unset Elimination Schemes.
Inductive value : Type :=
| VUndef
| VNull
| VBool (b : bool)
| VNum (n : Z)
| VStr (s : string)
| VArr (elems : list value)
| VObj (fields : list (string * value)).
#[local] Set Elimination Schemes.

(** [Boolean(v)], the test behind [if (v)], [!v], [a || b] and
    [filter(Boolean)]. *)
Definition truthy (v : value) : bool :=
  match v with
  | VUndef | VNull => false
  | VBool b => b
  | VNum n => negb (n =? 0)%Z
  | VStr s => negb (String.eqb s "")
  | VArr _ | VObj _ => true
  end.

(** [a || b] *)
Definition js_or (a b : value) : value := if truthy a then a else b.

(** [a ?? b] *)
Definition js_nullish (a b : value) : value :=
  match a with VUndef | VNull => b | _ => a end.

Infix "||'" := js_or (at level 51, left associativity).
Infix "??'" := js_nullish (at level 51, left associativity).

Definition nullish (v : value) : bool :=
  match v with VUndef | VNull => true | _ => false end.

(** The first binding of a key in an association list. *)
Fixpoint assoc {A : Type} (k : string) (l : list (string * A)) : option A :=
  match l with
  | [] => None
  | (k', a) :: l' => if String.eqb k k' then Some a else assoc k l'
  end.

(** A canonical array index: the decimal numeral of a natural number. *)
Fixpoint digits_value (acc : nat) (s : string) : option nat :=
  match s with
  | "" => Some acc
  | String c s' =>
      let d := nat_of_ascii c in
      if (48 <=? d)%nat && (d <=? 57)%nat
      then digits_value (10 * acc + (d - 48)) s'
      else None
  end.

Definition index_of_key (k : string) : option nat :=
  match k with
  | "" => None
  | _ =>
      match digits_value 0 k with
      | Some n => if String.eqb (pretty n) k then Some n else None
      | None => None
      end
  end.

Fixpoint chars (s : string) : list string :=
  match s with
  | "" => []
  | String c s' => String c "" :: chars s'
  end.

(** [v[k]] on a value that is neither [null] nor [undefined]; on those two
    JavaScript throws, see [member]. *)
Definition get (v : value) (k : string) : value :=
  match v with
  | VObj fields => default VUndef (assoc k fields)
  | VArr elems =>
      if String.eqb k "length" then VNum (Z.of_nat (length elems))
      else match index_of_key k with
           | Some i => default VUndef (elems !! i)
           | None => VUndef
           end
  | VStr s =>
      if String.eqb k "length" then VNum (Z.of_nat (String.length s))
      else match index_of_key k with
           | Some i => default VUndef (VStr <$> chars s !! i)
           | None => VUndef
           end
  | _ => VUndef
  end.

(** Pair each element with its index, from [i] on. *)
Fixpoint indexed {A : Type} (i : nat) (l : list A) : list (string * A) :=
  match l with
  | [] => []
  | a :: l' => (pretty i, a) :: indexed (S i) l'
  end.

(** [Object.entries(v)] for a value that is neither [null] nor
    [undefined]. *)
Definition entries (v : value) : list (string * value) :=
  match v with
  | VObj fields => fields
  | VArr elems => indexed 0 elems
  | VStr s => indexed 0 (VStr <$> chars s)
  | _ => []
  end.

(** ** Results of code that can throw *)

Inductive outcome (A : Type) : Type :=
| Ok (a : A)
| Throw
| OutOfFuel.
Arguments Ok {A} a.
Arguments Throw {A}.
Arguments OutOfFuel {A}.

#[global] Instance outcome_ret : MRet outcome := λ A a, Ok a.
#[global] Instance outcome_bind : MBind outcome := λ A B f m,
  match m with
  | Ok a => f a
  | Throw => Throw
  | OutOfFuel => OutOfFuel
  end.
#[global] Instance outcome_fmap : FMap outcome := λ A B f m,
  match m with
  | Ok a => Ok (f a)
  | Throw => Throw
  | OutOfFuel => OutOfFuel
  end.

(** [v.k] where the receiver may be [null] or [undefined]. *)
Definition member (v : value) (k : string) : outcome value :=
  if nullish v then Throw else Ok (get v k).

(** ** Strings *)

(** [s.replace(pat, rep)] with a string pattern: the first occurrence. *)
Fixpoint replace_first (pat rep s : string) : string :=
  if String.prefix pat s
  then rep +:+ String.substring (String.length pat)
                 (String.length s - String.length pat) s
  else match s with
       | "" => ""
       | String c s' => String c (replace_first pat rep s')
       end.

(** [s.split(sep)] with a one-character separator. *)
Fixpoint split_on (sep : ascii) (s : string) : list string :=
  match s with
  | "" => [""]
  | String c s' =>
      if Ascii.eqb c sep then "" :: split_on sep s'
      else match split_on sep s' with
           | h :: t => String c h :: t
           | [] => [String c ""]
           end
  end.

(** [l.join(sep)] on strings. *)
Fixpoint join (sep : string) (l : list string) : string :=
  match l with
  | [] => ""
  | [s] => s
  | s :: l' => s +:+ sep +:+ join sep l'
  end.

(** [s.includes(sub)] on strings. *)
Fixpoint str_includes (sub s : string) : bool :=
  String.prefix sub s ||
  match s with
  | "" => false
  | String _ s' => str_includes sub s'
  end.

(** [String(v)], also the conversion in template literals and in [+] with
    a string operand.  An array joins its elements with a comma, [null]
    and [undefined] elements as the empty string. *)
Fixpoint to_string (v : value) : string :=
  match v with
  | VUndef => "undefined"
  | VNull => "null"
  | VBool true => "true"
  | VBool false => "false"
  | VNum n => pretty n
  | VStr s => s
  | VArr elems =>
      join "," ((fun e => if nullish e then "" else to_string e) <$> elems)
  | VObj _ => "[object Object]"
  end.

(** [l.join(sep)] on values. *)
Definition join_values (sep : string) (l : list value) : string :=
  join sep ((fun e => if nullish e then "" else to_string e) <$> l).


(** [v === "lit"] against a string literal, as in a [switch] on strings. *)
Definition is_str (v : value) (lit : string) : bool :=
  match v with
  | VStr s => String.eqb s lit
  | _ => false
  end.

(** [typeof v === "object"] *)
Definition is_object (v : value) : bool :=
  match v with
  | VNull | VArr _ | VObj _ => true
  | _ => false
  end.

(** Nesting depth of a value; it bounds the recursion of the functions
    that walk a schema downwards. *)
Fixpoint height (v : value) : nat :=
  match v with
  | VArr elems => S (max_list (height <$> elems))
  | VObj fields => S (max_list ((λ kv, height kv.2) <$> fields))
  | _ => 0
  end.

(** ** src/services/schema.ts *)

Module Schema.

Definition getSchemaType (schema : value) : value :=
  if negb (truthy schema) then VStr "string"
  else if truthy (get schema "type") then get schema "type"
  else if truthy (get schema "properties") then VStr "object"
  else if truthy (get schema "items") then VStr "array"
  else VStr "string".

(** [schema.$ref.replace("#/", "").split("/")]; only a string has a
    [replace] method. *)
Definition ref_path (ref : value) : outcome (list string) :=
  match ref with
  | VStr r => Ok (split_on "/" (replace_first "#/" "" r))
  | _ => Throw
  end.

(** The [for (const segment of refPath)] loop: [Some] of the node reached,
    [None] when a segment is missing (the early [return schema]). *)
Fixpoint follow_ref (refPath : list string) (resolved : value)
  : outcome (option value) :=
  match refPath with
  | [] => Ok (Some resolved)
  | segment :: rest =>
      next ← member resolved segment;
      if truthy next then follow_ref rest next else Ok None
  end.

Fixpoint resolveSchemaReferences (fuel : nat) (schema rootSchema : value)
  : outcome value :=
  match fuel with
  | 0 => OutOfFuel
  | S fuel =>
      if negb (truthy schema) then Ok schema
      else if is_object schema then
        if truthy (get schema "$ref") then
          refPath ← ref_path (get schema "$ref");
          target ← follow_ref refPath rootSchema;
          match target with
          | Some resolved => resolveSchemaReferences fuel resolved rootSchema
          | None => Ok schema
          end
        else
          match schema with
          | VArr elems =>
              VArr <$> mapM (λ v, resolveSchemaReferences fuel v rootSchema) elems
          | _ =>
              VObj <$> mapM (λ kv, pair kv.1 <$>
                                     resolveSchemaReferences fuel kv.2 rootSchema)
                            (entries schema)
          end
      else Ok schema
  end.

(** The body of [generateExampleFromSchema], its recursive calls going
    through [recur]. *)
Definition generateExample_body (recur : value → value) (schema : value)
  : value :=
  if negb (truthy schema) then VUndef
  else
    let type := getSchemaType schema in
    if is_str type "string" then
      get schema "example" ||' get schema "default" ||' VStr "string"
    else if is_str type "number" then
      get schema "example" ||' get schema "default" ||' VNum 0
    else if is_str type "integer" then
      get schema "example" ||' get schema "default" ||' VNum 0
    else if is_str type "boolean" then
      get schema "example" ||' get schema "default" ||' VBool false
    else if is_str type "array" then
      if truthy (get schema "items")
      then VArr [recur (get schema "items")]
      else VArr []
    else if is_str type "object" then
      if truthy (get schema "properties")
      then VObj ((λ kv, (kv.1, recur kv.2)) <$> entries (get schema "properties"))
      else VObj []
    else VUndef.

Fixpoint generateExample_fuel (fuel : nat) (schema : value) : value :=
  match fuel with
  | 0 => VUndef
  | S fuel => generateExample_body (generateExample_fuel fuel) schema
  end.

(** The recursion descends into [schema.items] and into the values of
    [schema.properties], so [S (height schema)] steps always suffice
    ([generateExampleFromSchema_unfold]). *)
Definition generateExampleFromSchema (schema : value) : value :=
  generateExample_fuel (S (height schema)) schema.

End Schema.


(** No object of the value carries a truthy [$ref]. *)
Fixpoint ref_free (v : value) : bool :=
  match v with
  | VArr elems => forallb ref_free elems
  | VObj fields =>
      negb (truthy (default VUndef (assoc "$ref" fields)))
      && forallb (λ kv, ref_free kv.2) fields
  | _ => true
  end.

(** ** src/types.ts *)

(** The [HTTPMethods] vocabulary. *)
Definition HTTP_METHODS : list string :=
  ["DELETE"; "GET"; "HEAD"; "PATCH"; "POST"; "PUT"; "OPTIONS"].

(** [interface Route].  The fields typed [any] or filled from untyped
    schema data are values; an absent optional field is [VUndef]
    (for [tags], [None]). *)
Record Route : Type := {
  methods : list string;
  url : string;
  name : value;
  summary : value;
  description : value;
  tags : option (list value);
  headers : value;
  querystring : value;
  body : value;
  params : value;
  response : value;
}.

Inductive TransportType : Type := streamableHttp | sse.

(** [interface McpPluginOptions]; [None] is an absent option. *)
Record McpPluginOptions : Type := {
  opt_name : option string;
  opt_description : option string;
  describeFullSchema : option bool;
  skipHeadRoutes : option bool;
  skipOptionsRoutes : option bool;
  mountPath : option string;
  filter : option (Route → option bool);
  addDebugEndpoint : option bool;
  transportType : option TransportType;
}.

(** Truthiness of an optional boolean. *)
Definition enabled (o : option bool) : bool := default false o.

(** [McpTool["inputSchema"]] *)
Record InputSchema : Type := {
  is_type : string;
  properties : list (string * value);
  required : option (list string);
  title : string;
}.

Record McpTool : Type := {
  tool_name : value;
  tool_description : value;
  inputSchema : InputSchema;
}.

(** [interface McpToolPayload], as [prepareToolPayload] fills it. *)
Record McpToolPayload : Type := {
  p_params : list (string * value);
  p_query : list (string * value);
  p_body : list (string * value);
}.

(** ** Object updates *)

(** [obj[key] = v]: an existing key keeps its place, a new one goes last. *)
Fixpoint obj_set {A : Type} (key : string) (v : A) (obj : list (string * A))
  : list (string * A) :=
  match obj with
  | [] => [(key, v)]
  | (k, a) :: obj' =>
      if String.eqb key k then (k, v) :: obj'
      else (k, a) :: obj_set key v obj'
  end.

(** [(list || []).includes(key)] for a schema's [required] field: an array
    is searched for the key, a string for the substring; any other truthy
    value has no [includes] method. *)
Definition includes_key (list : value) (key : string) : outcome bool :=
  match list ||' VArr [] with
  | VArr elems => Ok (existsb (λ e, is_str e key) elems)
  | VStr s => Ok (str_includes key s)
  | _ => Throw
  end.

Definition nl : string := String (ascii_of_nat 10) "".
Definition nlnl : string := nl +:+ nl.

(** ** src/services/tool-converter.ts *)

Module ToolConverter.
Section WithOptions.
(** [JSON.stringify(obj, null, 2)], on the truthy values it is applied
    to here. *)
Variable stringify : value → string.
Variable options : McpPluginOptions.

Definition asMDJson (obj : value) : string :=
  "```json" +:+ nl +:+ stringify obj +:+ nl +:+ "```".

Definition buildToolName (route : Route) : value := name route.

Definition buildToolDescription (route : Route) : value :=
  let parts := [summary route; description route] in
  let parts :=
    match tags route with
    | Some (_ :: _ as ts) =>
        parts ++ [VStr ("Tags: " +:+ join_values ", " ts)]
    | _ => parts
    end in
  let parts :=
    if truthy (response route) && enabled (describeFullSchema options) then
      let parts := parts ++ [VStr "### Response:"] in
      let example := Schema.generateExampleFromSchema (response route) in
      let parts :=
        if truthy example
        then parts ++
               [VStr ("**Example Response:**" +:+ nl +:+ asMDJson example)]
        else parts in
      if enabled (describeFullSchema options)
      then parts ++
             [VStr ("**Output Schema:**" +:+ asMDJson (response route))]
      else parts
    else parts in
  VStr (join_values nlnl (List.filter truthy parts)) ||' name route.

(** One [for (const [key, schema] of Object.entries(...))] loop of
    [buildToolInputSchema]; [describe] is the group's description
    expression, which for headers reads [schema.description]. *)
Fixpoint add_properties (describe : string → value → outcome value)
    (group_required : value) (props : list (string * value))
    (props_required : list (string * value) * list string)
  : outcome (list (string * value) * list string) :=
  match props with
  | [] => Ok props_required
  | (key, schema) :: props' =>
      d ← describe key schema;
      let entry := VObj [("type", Schema.getSchemaType schema);
                         ("title", VStr key);
                         ("description", d)] in
      isreq ← includes_key group_required key;
      add_properties describe group_required props'
        (obj_set key entry props_required.1,
         if isreq : bool then props_required.2 ++ [key] else props_required.2)
  end.

Definition add_group (describe : string → value → outcome value)
    (group : value) (props_required : list (string * value) * list string)
  : outcome (list (string * value) * list string) :=
  if truthy group
  then add_properties describe (get group "required")
         (entries (get group "properties" ||' VObj [])) props_required
  else Ok props_required.

Definition header_description (key : string) (schema : value) : outcome value :=
  d ← member schema "description"; Ok (d ??' VStr ("Header: " +:+ key)).
Definition param_description (key : string) (_ : value) : outcome value :=
  Ok (VStr ("Path parameter: " +:+ key)).
Definition query_description (key : string) (_ : value) : outcome value :=
  Ok (VStr ("Query parameter: " +:+ key)).
Definition body_description (key : string) (_ : value) : outcome value :=
  Ok (VStr ("Body parameter: " +:+ key)).

Definition buildToolInputSchema (route : Route) : outcome InputSchema :=
  st ← add_group header_description (headers route) ([], []);
  st ← add_group param_description (params route) st;
  st ← add_group query_description (querystring route) st;
  st ← add_group body_description (body route) st;
  Ok {| is_type := "object";
        properties := st.1;
        required := match st.2 with [] => None | _ => Some st.2 end;
        title := to_string (name route) +:+ "Parameters" |}.

Definition convertRouteToTool (route : Route) : outcome McpTool :=
  let n := buildToolName route in
  let d := buildToolDescription route in
  s ← buildToolInputSchema route;
  Ok {| tool_name := n; tool_description := d; inputSchema := s |}.

End WithOptions.
End ToolConverter.

(** The value of a group's [required] field has an [includes] method once
    [|| []] has been applied: it is falsy, an array or a string. *)
Definition has_includes (group_required : value) : bool :=
  match group_required ||' VArr [] with
  | VArr _ | VStr _ => true
  | _ => false
  end.

(** The schema a parameter group declares for a key, if any. *)
Definition declared (group : value) (key : string) : option value :=
  if truthy group
  then assoc key (entries (get group "properties" ||' VObj []))
  else None.

(** The keys a parameter group declares. *)
Definition declared_keys (group : value) : list string :=
  if truthy group
  then (entries (get group "properties" ||' VObj [])).*1
  else [].

(** The entry of the property map for a key. *)
Definition property_entry (key : string) (schema d : value) : value :=
  VObj [("type", Schema.getSchemaType schema);
        ("title", VStr key);
        ("description", d)].

(** ** src/unnamed/part_000: a second tool converter

    Its [buildToolName], [buildToolInputSchema] and [convertRouteToTool]
    are the text of [ToolConverter]'s; [buildToolDescription] builds the
    string by concatenation. *)

Module ToolConverterConcat.
Section WithOptions.
Variable stringify : value → string.
Variable options : McpPluginOptions.

Definition buildToolName (route : Route) : value := name route.

(** [description += s] *)
Definition append (desc : value) (s : string) : value :=
  VStr (to_string desc +:+ s).

Definition buildToolDescription (route : Route) : value :=
  let desc := summary route in
  let desc :=
    if truthy (description route)
    then append desc (nlnl +:+ to_string (description route))
    else desc in
  let desc :=
    match tags route with
    | Some (_ :: _ as ts) =>
        append desc (nlnl +:+ "Tags: " +:+ join_values ", " ts)
    | _ => desc
    end in
  let desc :=
    if truthy (response route) && enabled (describeFullSchema options) then
      let desc := append desc (nlnl +:+ "### Response:") in
      let example := Schema.generateExampleFromSchema (response route) in
      let desc :=
        if truthy example then
          let desc :=
            append desc
              (nlnl +:+ "**Example Response:**" +:+ nl +:+ "```json" +:+ nl) in
          let desc := append desc (stringify example) in
          append desc (nl +:+ "```")
        else desc in
      if enabled (describeFullSchema options) then
        let desc :=
          append desc
            (nlnl +:+ "**Output Schema:**" +:+ nl +:+ "```json" +:+ nl) in
        let desc := append desc (stringify (response route)) in
        append desc (nl +:+ "```")
      else desc
    else desc in
  desc ||' name route.

Definition buildToolInputSchema : Route → outcome InputSchema :=
  ToolConverter.buildToolInputSchema.

Definition convertRouteToTool (route : Route) : outcome McpTool :=
  let n := buildToolName route in
  let d := buildToolDescription route in
  s ← buildToolInputSchema route;
  Ok {| tool_name := n; tool_description := d; inputSchema := s |}.

End WithOptions.
End ToolConverterConcat.

(** ** src/unnamed/part_001: the route filter *)

(** [list.includes(x)] on an array of strings. *)
Definition includes (x : string) (list : list string) : bool :=
  existsb (String.eqb x) list.

Module RouteFilter.
Section WithOptions.
Variable options : McpPluginOptions.

(** The callback handed to [routes.filter]. *)
Definition keep (route : Route) : bool :=
  if enabled (skipHeadRoutes options) && includes "HEAD" (methods route)
  then false
  else if enabled (skipOptionsRoutes options)
          && includes "OPTIONS" (methods route)
  then false
  else match filter options with
       | Some f => if negb (enabled (f route)) then false else true
       | None => true
       end.

(** [Array.prototype.filter]: a new array of the elements the callback
    accepts, in their order. *)
Fixpoint array_filter (callback : Route → bool) (routes : list Route)
  : list Route :=
  match routes with
  | [] => []
  | route :: routes' =>
      if callback route then route :: array_filter callback routes'
      else array_filter callback routes'
  end.

Definition filterRoutes (routes : list Route) : list Route :=
  array_filter keep routes.

End WithOptions.
End RouteFilter.

(** A route the filter drops, in the words of its three rules. *)
Definition dropped (options : McpPluginOptions) (route : Route) : Prop :=
  (skipHeadRoutes options = Some true ∧ "HEAD" ∈ methods route)
  ∨ (skipOptionsRoutes options = Some true ∧ "OPTIONS" ∈ methods route)
  ∨ (∃ f, filter options = Some f ∧ f route ≠ Some true).

(** ** src/unnamed/part_002: the request handler *)

(** [v?.[k]] *)
Definition opt_get (v : value) (k : string) : value :=
  if nullish v then VUndef else get v k.

(** The request handed to [fastify.inject]; [io_method] is
    [route.methods[0]], [io_payload] is absent for an empty body. *)
Record InjectOptions : Type := {
  io_method : option string;
  io_url : string;
  io_query : list (string * value);
  io_payload : option (list (string * value));
}.

(** [CallToolResult]: [{content: [{type: "text", text}]}], one item. *)
Record CallToolResult : Type := {
  content_text : string;
}.

(** The names of the members of [Object.prototype], which every value
    other than [null] and [undefined] inherits. *)
Definition Object_prototype : list string :=
  ["constructor"; "__defineGetter__"; "__defineSetter__"; "hasOwnProperty";
   "__lookupGetter__"; "__lookupSetter__"; "isPrototypeOf";
   "propertyIsEnumerable"; "toString"; "valueOf"; "__proto__";
   "toLocaleString"].

(** The key names an own property of the value. *)
Definition has_own (v : value) (k : string) : bool :=
  match v with
  | VObj fields => match assoc k fields with Some _ => true | None => false end
  | VArr elems =>
      String.eqb k "length"
      || match index_of_key k with
         | Some i => i <? length elems
         | None => false
         end
  | VStr s =>
      String.eqb k "length"
      || match index_of_key k with
         | Some i => i <? String.length s
         | None => false
         end
  | _ => false
  end.

(** [obj[key] = v] on a plain object.  The key [__proto__] names the
    accessor of [Object.prototype]: the assignment runs its setter, which
    changes the object's prototype or does nothing, and no own property is
    created. *)
Definition set_member {A : Type} (key : string) (v : A)
    (obj : list (string * A)) : list (string * A) :=
  if String.eqb key "__proto__" then obj else obj_set key v obj.

Module RequestHandler.
Section WithFastify.
(** The names of the members of the built-in prototype of an array, a
    string, a number or a boolean ([Array.prototype], ...); they depend on
    the edition of the language.  A plain object inherits from
    [Object.prototype] alone. *)
Variable builtin_members : value → list string.

(** The key names a member the value inherits. *)
Definition inherits (v : value) (k : string) : bool :=
  includes k Object_prototype
  || match v with
     | VObj _ => false
     | _ => includes k (builtin_members v)
     end.

(** [Boolean(v?.[k])] with the prototypes taken into account: an own
    property decides by its value; an inherited member is a function (for
    [__proto__], the prototype object) and so truthy. *)
Definition has_member (v : value) (k : string) : bool :=
  if nullish v then false
  else if has_own v k then truthy (get v k)
  else inherits v k.

(** The two tests of [prepareToolPayload] on a key:
    [route.params?.properties?.[key]] and
    [route.querystring?.properties?.[key]]. *)
Definition is_path_parameter (route : Route) (key : string) : bool :=
  has_member (opt_get (params route) "properties") key.
Definition is_query_parameter (route : Route) (key : string) : bool :=
  has_member (opt_get (querystring route) "properties") key.

(** [encodeURIComponent]; its results hold no [$], so the replacement
    patterns of [String.prototype.replace] play no part. *)
Variable encodeURIComponent : string → string.
(** [JSON.parse], [None] when it throws. *)
Variable parse : string → option value.
(** [JSON.stringify(v, null, 2)] *)
Variable stringify : value → string.
(** [fastify.inject], giving [result.body]; [None] when it rejects. *)
Variable inject : InjectOptions → option string.

(** The loop of [prepareToolPayload] over [Object.entries(args)]. *)
Fixpoint assign (route : Route) (args : list (string * value))
    (payload : McpToolPayload) : McpToolPayload :=
  match args with
  | [] => payload
  | (key, v) :: args' =>
      assign route args'
        (if is_path_parameter route key then
           {| p_params := set_member key v (p_params payload);
              p_query := p_query payload;
              p_body := p_body payload |}
         else if is_query_parameter route key then
           {| p_params := p_params payload;
              p_query := set_member key v (p_query payload);
              p_body := p_body payload |}
         else
           {| p_params := p_params payload;
              p_query := p_query payload;
              p_body := set_member key v (p_body payload) |})
  end.

Definition prepareToolPayload (route : Route) (args : list (string * value))
  : McpToolPayload :=
  assign route args {| p_params := []; p_query := []; p_body := [] |}.

Definition formatToolResponse (responseBody : string) : CallToolResult :=
  match parse responseBody with
  | Some responseJSON => {| content_text := stringify responseJSON |}
  | None => {| content_text := responseBody |}
  end.

(** The loop of [handleToolCall] over [Object.entries(payload.params)]:
    [url = url.replace(`:${key}`, encodeURIComponent(String(value)))]. *)
Fixpoint replace_path_parameters (path_params : list (string * value))
    (url : string) : string :=
  match path_params with
  | [] => url
  | (key, v) :: path_params' =>
      replace_path_parameters path_params'
        (replace_first (":" +:+ key) (encodeURIComponent (to_string v)) url)
  end.

(** The argument of [fastify.inject] in [handleToolCall]. *)
Definition inject_options (route : Route) (args : list (string * value))
  : InjectOptions :=
  let payload := prepareToolPayload route args in
  let url := replace_path_parameters (p_params payload) (url route) in
  {| io_method := head (methods route);
     io_url := url;
     io_query := p_query payload;
     io_payload := match p_body payload with
                   | [] => None
                   | _ => Some (p_body payload)
                   end |}.

(** [None] when the injected request rejects. *)
Definition handleToolCall (route : Route) (args : list (string * value))
  : option CallToolResult :=
  result ← inject (inject_options route args);
  Some (formatToolResponse result).

End WithFastify.
End RequestHandler.

(** ** The plugin (the second module of src/test/setup.ts) *)

(** [config.mcp] of a route. *)
Record McpConfig : Type := {
  hidden : option bool;
  mcp_name : option string;
  mcp_description : option string;
}.

(** [routeOptions.method]: one method or an array of methods. *)
Inductive MethodOption : Type :=
| OneMethod (m : string)
| ManyMethods (ms : list string).

(** What the [onRoute] hook reads of Fastify's [RouteOptions];
    [ro_mcp] is [routeOptions.config?.mcp], [ro_schema] is [VUndef] for a
    route without schema. *)
Record RouteOptions : Type := {
  ro_method : MethodOption;
  ro_url : string;
  ro_schema : value;
  ro_mcp : option McpConfig;
}.

(** An optional string as a value. *)
Definition of_opt_string (o : option string) : value :=
  match o with
  | Some s => VStr s
  | None => VUndef
  end.

(** [url.replace(/[/:{}]/g, "_")] *)
Fixpoint replace_separators (url : string) : string :=
  match url with
  | "" => ""
  | String c url' =>
      String (if Ascii.eqb c "/" || Ascii.eqb c ":" || Ascii.eqb c "{"
                 || Ascii.eqb c "}"
              then "_"%char else c)
             (replace_separators url')
  end.

(** [`${routeOptions.method}`] *)
Definition method_string (m : MethodOption) : string :=
  match m with
  | OneMethod m => m
  | ManyMethods ms => join "," ms
  end.

(** What the [CallTool] request handler does: it returns a result, throws
    [new Error(message)] for an unknown tool, or fails with the error of
    the call itself. *)
Inductive CallOutcome : Type :=
| Returned (result : CallToolResult)
| ToolNotFound (message : string)
| CallFailed.

Module Plugin.

(** [{ name: "Fastify MCP", ..., ..._options }]: an option that is given
    replaces the default. *)
Definition defaults (_options : McpPluginOptions) : McpPluginOptions :=
  {| opt_name := Some (default "Fastify MCP" (opt_name _options));
     opt_description :=
       Some (default "MCP server for Fastify" (opt_description _options));
     describeFullSchema := Some (default false (describeFullSchema _options));
     skipHeadRoutes := Some (default true (skipHeadRoutes _options));
     skipOptionsRoutes := Some (default true (skipOptionsRoutes _options));
     mountPath := Some (default "/mcp" (mountPath _options));
     filter := filter _options;
     addDebugEndpoint := Some (default false (addDebugEndpoint _options));
     transportType := Some (default sse (transportType _options)) |}.

Section WithOptions.
Variable stringify : value → string.
Variable options : McpPluginOptions.
Variable builtin_members : value → list string.
Variable encodeURIComponent : string → string.
Variable parse : string → option value.
Variable inject : InjectOptions → option string.

(** [options.mountPath?.startsWith("/") ? options.mountPath
     : `/${options.mountPath}`] *)
Definition normalizedMountPath : string :=
  match mountPath options with
  | Some path => if String.prefix "/" path then path else "/" +:+ path
  | None => "/undefined"
  end.

(** The HTTP endpoints the plugin adds, as (method, path), in the order
    of their registration. *)
Definition endpoints : list (string * string) :=
  match transportType options with
  | Some streamableHttp => [("POST", normalizedMountPath)]
  | _ => []
  end
  ++ match transportType options with
     | Some sse => [("GET", normalizedMountPath +:+ "/sse");
                    ("POST", normalizedMountPath +:+ "/messages")]
     | _ => []
     end
  ++ (if enabled (addDebugEndpoint options)
      then [("GET", normalizedMountPath +:+ "/tools")]
      else []).

Definition is_hidden (routeOptions : RouteOptions) : bool :=
  enabled (ro_mcp routeOptions ≫= hidden).

Definition route_name (routeOptions : RouteOptions) : value :=
  of_opt_string (ro_mcp routeOptions ≫= mcp_name)
  ||' opt_get (ro_schema routeOptions) "operationId"
  ||' VStr (method_string (ro_method routeOptions) +:+ "_"
            +:+ replace_separators (ro_url routeOptions)).

Definition route_tags (routeOptions : RouteOptions) : list value :=
  match opt_get (ro_schema routeOptions) "tags" ||' VArr [] with
  | VArr tagList => tagList
  | _ => []
  end.

Definition methodList (routeOptions : RouteOptions) : list string :=
  match ro_method routeOptions with
  | ManyMethods ms => ms
  | OneMethod m => [m]
  end.

Definition route_methods (routeOptions : RouteOptions) : list string :=
  List.filter (λ method, includes method HTTP_METHODS) (methodList routeOptions).

(** The [onRoute] hook on the [routes] array: the array afterwards, or
    the failure of a [resolveSchemaReferences] call, which leaves the
    array as it was. *)
Definition onRoute (fuel : nat) (routeOptions : RouteOptions)
    (routes : list Route) : outcome (list Route) :=
  if is_hidden routeOptions then Ok routes
  else
    let name := route_name routeOptions in
    let tags := route_tags routeOptions in
    let methods := route_methods routeOptions in
    match methods with
    | [] => Ok routes
    | _ =>
        let schema := ro_schema routeOptions in
        q ← Schema.resolveSchemaReferences fuel (opt_get schema "querystring") schema;
        b ← Schema.resolveSchemaReferences fuel (opt_get schema "body") schema;
        p ← Schema.resolveSchemaReferences fuel (opt_get schema "params") schema;
        r ← Schema.resolveSchemaReferences fuel
              (opt_get (opt_get schema "response") "200"
               ||' opt_get (opt_get schema "response") "2xx") schema;
        Ok (routes ++
            [{| methods := methods;
                url := ro_url routeOptions;
                name := name;
                summary := opt_get schema "summary";
                description :=
                  of_opt_string (ro_mcp routeOptions ≫= mcp_description)
                  ||' opt_get schema "description";
                tags := Some tags;
                headers := VUndef;
                querystring := q;
                body := b;
                params := p;
                response := r |}])
    end.

(** The registry after a hook call, whether it returned or threw. *)
Definition registered (fuel : nat) (routes : list Route)
    (routeOptions : RouteOptions) : list Route :=
  match onRoute fuel routeOptions routes with
  | Ok routes' => routes'
  | _ => routes
  end.

(** The registry after the hook has run for each route in turn. *)
Definition register_all (fuel : nat) (registrations : list RouteOptions)
    (routes : list Route) : list Route :=
  foldl (registered fuel) routes registrations.

(** The [ListTools] request handler (and the debug endpoint). *)
Definition listTools (routes : list Route) : outcome (list McpTool) :=
  let filteredRoutes := RouteFilter.filterRoutes options routes in
  mapM (ToolConverter.convertRouteToTool stringify options) filteredRoutes.

(** The [CallTool] request handler; [arguments] is
    [request.params.arguments], and [Object.entries] throws on
    [undefined]. *)
Definition callTool (routes : list Route) (toolName : string)
    (arguments : option (list (string * value))) : CallOutcome :=
  let filteredRoutes := RouteFilter.filterRoutes options routes in
  match List.find (λ r, is_str (name r) toolName) filteredRoutes with
  | None => ToolNotFound ("Tool '" +:+ toolName +:+ "' not found")
  | Some route =>
      match arguments with
      | None => CallFailed
      | Some args =>
          match RequestHandler.handleToolCall builtin_members
                  encodeURIComponent parse
                  stringify inject route args with
          | Some result => Returned result
          | None => CallFailed
          end
      end
  end.

End WithOptions.
End Plugin.

(** ** The session map of the plugin ([activeTransports]) *)

(** What an HTTP handler sends: [res.status(code).send(payload)]. *)
Record Response : Type := {
  status : nat;
  payload : value;
}.

Module Sessions.
Section WithTransport.
(** [SSEServerTransport] objects, and [transport.handlePostMessage]: the
    response the transport writes, or [None] when the call throws. *)
Variable Transport : Type.
Variable handlePostMessage : Transport → value → option Response.

Definition not_found : Response :=
  {| status := 404; payload := VObj [("error", VStr "Session not found")] |}.
Definition internal_error : Response :=
  {| status := 500; payload := VObj [("error", VStr "Internal server error")] |}.

(** [GET {mount}/sse]: [activeTransports.set(sessionId, transport)]. *)
Definition sse_connect (sessionId : string) (transport : Transport)
    (activeTransports : gmap string Transport) : gmap string Transport :=
  <[sessionId := transport]> activeTransports.

(** The [close] listener: [activeTransports.delete(sessionId)]. *)
Definition sse_close (sessionId : string)
    (activeTransports : gmap string Transport) : gmap string Transport :=
  delete sessionId activeTransports.

(** [POST {mount}/messages]; [sessionId] is [req.query.sessionId], absent
    when the query has none. *)
Definition post_message (activeTransports : gmap string Transport)
    (sessionId : option string) (body : value) : Response :=
  match sessionId ≫= (activeTransports !!.) with
  | None => not_found
  | Some transport =>
      match handlePostMessage transport body with
      | Some sent => sent
      | None => internal_error
      end
  end.

(** What happens to the session map between two messages. *)
Inductive event : Type :=
| Connect (sessionId : string) (transport : Transport)
| Close (sessionId : string)
| Post (sessionId : option string) (body : value).

Definition step (activeTransports : gmap string Transport) (ev : event)
  : gmap string Transport :=
  match ev with
  | Connect sessionId transport => sse_connect sessionId transport activeTransports
  | Close sessionId => sse_close sessionId activeTransports
  | Post _ _ => activeTransports
  end.

Definition run (activeTransports : gmap string Transport) (evs : list event)
  : gmap string Transport :=
  foldl step activeTransports evs.

(** The event opens a connection under this session identifier. *)
Definition connects (sessionId : string) (ev : event) : bool :=
  match ev with
  | Connect sessionId' _ => String.eqb sessionId sessionId'
  | _ => false
  end.

End WithTransport.

Arguments sse_connect {Transport} sessionId transport activeTransports.
Arguments sse_close {Transport} sessionId activeTransports.
Arguments post_message {Transport} handlePostMessage activeTransports
  sessionId body.
Arguments Connect {Transport} sessionId transport.
Arguments Close {Transport} sessionId.
Arguments Post {Transport} sessionId body.
Arguments step {Transport} activeTransports ev.
Arguments run {Transport} activeTransports evs.
Arguments connects {Transport} sessionId ev.

End Sessions.

(** * Properties *)

(** ** JavaScript operators *)

Lemma js_or_chain (e d p : value) :
  e ||' d ||' p = if truthy e then e else if truthy d then d else p.
Proof. unfold js_or. destruct (truthy e) eqn:He; [by rewrite He|done]. Qed.

(** ** Strings *)

Lemma append_inv_head (s a b : string) : s +:+ a = s +:+ b → a = b.
Proof. induction s as [|c s IH]; cbn; [done|]. intros [= H]. auto. Qed.

Lemma append_assoc (a b c : string) : (a +:+ b) +:+ c = a +:+ (b +:+ c).
Proof.
  induction a as [|x a IH]; [done|].
  exact (f_equal (String x) IH).
Qed.

Lemma append_nil_r (a : string) : a +:+ "" = a.
Proof.
  induction a as [|x a IH]; [done|].
  exact (f_equal (String x) IH).
Qed.

(** ** The embedding on small inputs *)

Example replace_first_ref : replace_first "#/" "" "#/definitions/a" = "definitions/a".
Proof. reflexivity. Qed.
Example split_on_ref : split_on "/" "definitions/a" = ["definitions"; "a"].
Proof. reflexivity. Qed.
Example split_on_empty : split_on "/" "" = [""].
Proof. reflexivity. Qed.
Example get_array_index : get (VArr [VNum 7; VNum 8]) "1" = VNum 8.
Proof. vm_compute. reflexivity. Qed.
Example get_array_noncanonical : get (VArr [VNum 7; VNum 8]) "01" = VUndef.
Proof. vm_compute. reflexivity. Qed.
Example to_string_array : to_string (VArr [VStr "GET"; VNull; VNum (-3)]) = "GET,,-3".
Proof. vm_compute. reflexivity. Qed.
Example getSchemaType_absent : Schema.getSchemaType VUndef = VStr "string".
Proof. reflexivity. Qed.
Example getSchemaType_properties :
  Schema.getSchemaType (VObj [("properties", VObj [])]) = VStr "object".
Proof. reflexivity. Qed.
Example generateExample_object :
  Schema.generateExampleFromSchema
    (VObj [("type", VStr "object");
           ("properties", VObj [("id", VObj [("type", VStr "integer")]);
                                ("tags", VObj [("items", VObj [("example", VStr "x")])])])])
  = VObj [("id", VNum 0); ("tags", VArr [VStr "x"])].
Proof. vm_compute. reflexivity. Qed.
Example resolve_ref :
  Schema.resolveSchemaReferences 5
    (VObj [("a", VObj [("$ref", VStr "#/defs/t")]); ("b", VObj [("$ref", VStr "#/nope")])])
    (VObj [("defs", VObj [("t", VObj [("type", VStr "string")])])])
  = Ok (VObj [("a", VObj [("type", VStr "string")]); ("b", VObj [("$ref", VStr "#/nope")])]).
Proof. vm_compute. reflexivity. Qed.

(** ** Association lists and object updates *)

Lemma assoc_None {A : Type} (k : string) (l : list (string * A)) :
  assoc k l = None ↔ k ∉ l.*1.
Proof.
  induction l as [|[k' a] l IH]; cbn.
  - split; [intros _; apply not_elem_of_nil|done].
  - rewrite not_elem_of_cons. destruct (String.eqb_spec k k') as [->|Hne].
    + split; [done|]. by intros [? _].
    + rewrite IH. tauto.
Qed.

Lemma assoc_Some_elem_of {A : Type} (k : string) (l : list (string * A)) (a : A) :
  assoc k l = Some a → (k, a) ∈ l.
Proof.
  induction l as [|[k' a'] l IH]; cbn; [done|].
  destruct (String.eqb_spec k k') as [->|Hne].
  - intros [= ->]. left.
  - intros H. right. auto.
Qed.


Lemma assoc_obj_set_eq {A : Type} (k : string) (v : A) (l : list (string * A)) :
  assoc k (obj_set k v l) = Some v.
Proof.
  induction l as [|[k' a] l IH]; cbn.
  - by rewrite String.eqb_refl.
  - destruct (String.eqb_spec k k') as [->|Hne]; cbn.
    + by rewrite String.eqb_refl.
    + by apply String.eqb_neq in Hne as ->.
Qed.

Lemma assoc_obj_set_ne {A : Type} (k k' : string) (v : A) (l : list (string * A)) :
  k ≠ k' → assoc k (obj_set k' v l) = assoc k l.
Proof.
  intros Hne. induction l as [|[k'' a] l IH]; cbn.
  - by apply String.eqb_neq in Hne as ->.
  - destruct (String.eqb_spec k' k'') as [->|Hne']; cbn.
    + by apply String.eqb_neq in Hne as ->.
    + by rewrite IH.
Qed.

(** An update keeps the keys, or adds the new key at the end. *)
Lemma obj_set_keys {A : Type} (k : string) (v : A) (l : list (string * A)) :
  (obj_set k v l).*1 = if bool_decide (k ∈ l.*1) then l.*1 else l.*1 ++ [k].
Proof.
  induction l as [|[k' a] l IH]; cbn; [done|].
  destruct (String.eqb_spec k k') as [->|Hne]; cbn.
  - rewrite bool_decide_eq_true_2; [done|left].
  - rewrite IH. destruct (bool_decide (k ∈ l.*1)) eqn:Hin.
    + apply bool_decide_eq_true_1 in Hin.
      rewrite bool_decide_eq_true_2; [done|by right].
    + apply bool_decide_eq_false_1 in Hin.
      rewrite bool_decide_eq_false_2; [done|].
      rewrite elem_of_cons. tauto.
Qed.

Lemma obj_set_NoDup {A : Type} (k : string) (v : A) (l : list (string * A)) :
  NoDup l.*1 → NoDup (obj_set k v l).*1.
Proof.
  intros Hl. rewrite obj_set_keys. case_bool_decide as Hin; [done|].
  apply NoDup_app. split; [done|]. split; [|apply NoDup_singleton].
  intros k' Hk' ->%list_elem_of_singleton. done.
Qed.

(** ** Schema examples: the recursion is bounded by the height *)

Lemma height_assoc (k : string) (fields : list (string * value)) (v : value) :
  assoc k fields = Some v → height v < height (VObj fields).
Proof.
  cbn [height]. induction fields as [|[k' a] fields IH]; cbn; [done|].
  destruct (String.eqb k k'); intros Hv.
  - injection Hv as ->. lia.
  - specialize (IH Hv). lia.
Qed.

Lemma height_elem (elems : list value) (v : value) :
  v ∈ elems → height v < height (VArr elems).
Proof.
  cbn [height]. induction 1 as [|?? ? _ IH]; cbn; lia.
Qed.

Lemma height_indexed (i : nat) (elems : list value) (kv : string * value) :
  kv ∈ indexed i elems → kv.2 ∈ elems.
Proof.
  revert i. induction elems as [|a elems IH]; intros i; cbn.
  - by intros ?%elem_of_nil.
  - intros [->|H]%elem_of_cons; [left | right; eauto].
Qed.

Lemma height_chars (s : string) (v : value) : v ∈ VStr <$> chars s → height v = 0.
Proof. intros (c & -> & _)%list_elem_of_fmap. done. Qed.

(** An entry of a value is no higher than the value. *)
Lemma height_entries (p : value) (kv : string * value) :
  kv ∈ entries p → (height kv.2 ≤ height p)%nat.
Proof.
  destruct p as [| | | |s|elems|fields]; cbn [entries];
    try by intros ?%elem_of_nil.
  - intros H%height_indexed%height_chars. lia.
  - intros H%height_indexed%height_elem. lia.
  - intros H. cbn [height]. clear -H.
    induction H as [|?? ? _ IH]; cbn; lia.
Qed.

(** Only an object has members other than indices and [length]. *)
Lemma get_named (s : value) (k : string) :
  String.eqb k "length" = false → index_of_key k = None →
  truthy (get s k) = true → height (get s k) < height s.
Proof.
  intros Hlen Hidx.
  destruct s as [| | | |s|elems|fields]; cbn [get]; try done.
  - rewrite Hlen, Hidx. done.
  - rewrite Hlen, Hidx. done.
  - destruct (assoc k fields) as [v|] eqn:Hv; [|done].
    intros _. by apply (height_assoc k).
Qed.

Lemma height_items (s : value) :
  truthy (get s "items") = true → height (get s "items") < height s.
Proof. by apply get_named. Qed.

Lemma height_properties (s : value) :
  truthy (get s "properties") = true → height (get s "properties") < height s.
Proof. by apply get_named. Qed.

Lemma generateExample_body_ext (rec1 rec2 : value → value) (schema : value) :
  (∀ c, height c < height schema → rec1 c = rec2 c) →
  Schema.generateExample_body rec1 schema = Schema.generateExample_body rec2 schema.
Proof.
  intros Hrec. unfold Schema.generateExample_body.
  destruct (negb (truthy schema)); [done|].
  repeat (match goal with |- context [is_str ?t ?l] => destruct (is_str t l) end;
          try reflexivity).
  - destruct (truthy (get schema "items")) eqn:Hitems; [|done].
    by rewrite (Hrec _ (height_items _ Hitems)).
  - destruct (truthy (get schema "properties")) eqn:Hprops; [|done].
    f_equal. apply Forall_fmap_ext_1, Forall_forall; intros kv Hkv.
    rewrite Hrec; [done|].
    pose proof (height_entries _ _ Hkv). pose proof (height_properties _ Hprops).
    lia.
Qed.

Lemma generateExample_fuel_enough (n m : nat) (schema : value) :
  height schema < n → height schema < m →
  Schema.generateExample_fuel n schema = Schema.generateExample_fuel m schema.
Proof.
  revert m schema. induction n as [|n IH]; intros [|m] schema; try lia.
  intros Hn Hm. cbn [Schema.generateExample_fuel].
  apply generateExample_body_ext. intros c Hc. apply IH; lia.
Qed.

(** [generateExampleFromSchema] satisfies the recursive equation of the
    source function. *)
Lemma generateExampleFromSchema_unfold (schema : value) :
  Schema.generateExampleFromSchema schema
  = Schema.generateExample_body Schema.generateExampleFromSchema schema.
Proof.
  unfold Schema.generateExampleFromSchema at 1.
  cbn [Schema.generateExample_fuel].
  apply generateExample_body_ext. intros c Hc.
  unfold Schema.generateExampleFromSchema.
  apply generateExample_fuel_enough; lia.
Qed.

(** ** Reference resolution *)

Lemma mapM_Ok_inv {A B : Type} (f : A → outcome B) (l : list A) (l' : list B) :
  mapM f l = Ok l' → Forall2 (λ a b, f a = Ok b) l l'.
Proof.
  revert l'. induction l as [|a l IH]; intros l'; cbn.
  - intros [= <-]. constructor.
  - destruct (f a) as [b| |] eqn:Hb; cbn; try done.
    destruct (mapM f l) as [bs| |]; cbn; try done.
    intros [= <-]. constructor; auto.
Qed.

Lemma mapM_Ok_intro {A B : Type} (f : A → outcome B) (l : list A) (l' : list B) :
  Forall2 (λ a b, f a = Ok b) l l' → mapM f l = Ok l'.
Proof.
  induction 1 as [|a b l l' Hab _ IH]; cbn; [done|].
  by rewrite Hab; cbn; rewrite IH.
Qed.

Lemma fmap_Ok_inv {A B : Type} (f : A → B) (m : outcome A) (b : B) :
  f <$> m = Ok b → ∃ a, m = Ok a ∧ b = f a.
Proof. destruct m; cbn; try done. intros [= <-]. eauto. Qed.

(** More fuel does not change a result. *)
Lemma resolveSchemaReferences_fuel_le (n m : nat) (schema rootSchema v : value) :
  n ≤ m →
  Schema.resolveSchemaReferences n schema rootSchema = Ok v →
  Schema.resolveSchemaReferences m schema rootSchema = Ok v.
Proof.
  revert m schema v. induction n as [|n IH]; intros m schema v Hle; [done|].
  destruct m as [|m]; [lia|]. assert (n ≤ m) as Hnm by lia. clear Hle.
  cbn [Schema.resolveSchemaReferences].
  destruct (negb (truthy schema)); [done|].
  destruct schema as [| | | | |elems|fields]; try done; cbn [is_object].
  - change (get (VArr elems) "$ref") with VUndef. cbn [truthy].
    intros (l' & H%mapM_Ok_inv & ->)%fmap_Ok_inv.
    erewrite mapM_Ok_intro; [done|].
    eapply Forall2_impl; [exact H|]. cbn. intros a b Hab. by apply (IH m).
  - destruct (truthy (get (VObj fields) "$ref")).
    + destruct (Schema.ref_path _) as [path| |]; cbn; try done.
      destruct (Schema.follow_ref path rootSchema) as [[t|]| |]; cbn; try done.
      by apply IH.
    + intros (l' & H%mapM_Ok_inv & ->)%fmap_Ok_inv.
      erewrite mapM_Ok_intro; [done|].
      eapply Forall2_impl; [exact H|]. cbn. intros kv kv'.
      intros (w & Hw & ->)%fmap_Ok_inv. by rewrite (IH m _ _ Hnm Hw).
Qed.

(** The [$ref] member of a rebuilt object is the resolved [$ref] member of
    the object it was built from. *)
Lemma assoc_resolved (n : nat) (rootSchema : value) (k : string)
    (fields fields' : list (string * value)) :
  Forall2 (λ kv kv', pair kv.1 <$> Schema.resolveSchemaReferences n kv.2 rootSchema
                     = Ok kv') fields fields' →
  match assoc k fields with
  | Some f => ∃ f', assoc k fields' = Some f'
                    ∧ Schema.resolveSchemaReferences n f rootSchema = Ok f'
  | None => assoc k fields' = None
  end.
Proof.
  induction 1 as [|[k1 a] kv' fields fields' Hkv _ IH]; cbn; [done|].
  apply fmap_Ok_inv in Hkv as (w & Hw & ->). cbn in *.
  destruct (String.eqb k k1); [eauto|done].
Qed.

Lemma resolveSchemaReferences_falsy (n : nat) (schema rootSchema v : value) :
  truthy schema = false →
  Schema.resolveSchemaReferences n schema rootSchema = Ok v → v = schema.
Proof.
  intros Hf. destruct n; cbn [Schema.resolveSchemaReferences]; [done|].
  rewrite Hf. cbn. by intros [= <-].
Qed.

Lemma resolveSchemaReferences_idem (fuel : nat) (schema rootSchema v : value) :
  Schema.resolveSchemaReferences fuel schema rootSchema = Ok v →
  Schema.resolveSchemaReferences fuel v rootSchema = Ok v.
Proof.
  revert schema v. induction fuel as [|n IH]; intros schema v; [done|].
  intros H. pose proof H as H0.
  cbn [Schema.resolveSchemaReferences] in H.
  destruct (negb (truthy schema)) eqn:Htruthy; [by injection H as <-|].
  destruct schema as [| | | | |elems|fields]; cbn [is_object] in H;
    try by injection H as <-.
  - change (get (VArr elems) "$ref") with VUndef in H. cbn [truthy] in H.
    apply fmap_Ok_inv in H as (l' & H%mapM_Ok_inv & ->).
    cbn [Schema.resolveSchemaReferences].
    change (get (VArr l') "$ref") with VUndef. cbn [negb truthy is_object].
    erewrite mapM_Ok_intro; [done|].
    clear -H IH. induction H; constructor; eauto.
  - destruct (truthy (get (VObj fields) "$ref")) eqn:Href.
    + destruct (Schema.ref_path _) as [path| |]; cbn in H; try done.
      destruct (Schema.follow_ref path rootSchema) as [[t|]| |]; cbn in H;
        try done.
      * apply (resolveSchemaReferences_fuel_le n); [lia|]. by eapply IH.
      * by injection H as <-.
    + apply fmap_Ok_inv in H as (l' & H%mapM_Ok_inv & ->).
      cbn [Schema.resolveSchemaReferences negb truthy is_object get entries].
      cbn [entries] in H.
      pose proof (assoc_resolved n rootSchema "$ref" _ _ H) as Hk.
      cbn [get] in Href.
      replace (truthy (default VUndef (assoc "$ref" l'))) with false.
      * erewrite mapM_Ok_intro; [done|].
        clear -H IH. induction H as [|kv kv' ?? Hkv _ IHl]; constructor; auto.
        apply fmap_Ok_inv in Hkv as (w & Hw & ->). cbn.
        by rewrite (IH _ _ Hw).
      * revert Href Hk. destruct (assoc "$ref" fields) as [f|]; cbn.
        -- intros Href (f' & -> & Hf').
           pose proof (resolveSchemaReferences_falsy _ _ _ _ Href Hf') as Heq.
           subst f'. cbn. by rewrite Href.
        -- by intros _ ->.
Qed.

(** ** The [onRoute] hook *)

(** What a returning hook call has done: nothing, or appended one route
    built from the route options. *)
Lemma onRoute_inv (fuel : nat) (ro : RouteOptions) (routes routes' : list Route) :
  Plugin.onRoute fuel ro routes = Ok routes' →
  routes' = routes
  ∨ ∃ r, routes' = routes ++ [r]
      ∧ Plugin.is_hidden ro = false
      ∧ methods r = Plugin.route_methods ro
      ∧ methods r ≠ []
      ∧ url r = ro_url ro
      ∧ name r = Plugin.route_name ro
      ∧ summary r = opt_get (ro_schema ro) "summary"
      ∧ tags r = Some (Plugin.route_tags ro)
      ∧ headers r = VUndef
      ∧ Schema.resolveSchemaReferences fuel
          (opt_get (ro_schema ro) "querystring") (ro_schema ro)
        = Ok (querystring r)
      ∧ Schema.resolveSchemaReferences fuel
          (opt_get (ro_schema ro) "body") (ro_schema ro)
        = Ok (body r)
      ∧ Schema.resolveSchemaReferences fuel
          (opt_get (ro_schema ro) "params") (ro_schema ro)
        = Ok (params r).
Proof.
  unfold Plugin.onRoute.
  destruct (Plugin.is_hidden ro) eqn:Hhidden; [intros [= <-]; by left|].
  destruct (Plugin.route_methods ro) as [|m ms] eqn:Hmethods;
    [intros [= <-]; by left|].
  destruct (Schema.resolveSchemaReferences fuel (opt_get _ "querystring") _)
    as [q| |] eqn:Hq; cbn; try done.
  destruct (Schema.resolveSchemaReferences fuel (opt_get _ "body") _)
    as [b| |] eqn:Hb; cbn; try done.
  destruct (Schema.resolveSchemaReferences fuel (opt_get _ "params") _)
    as [p| |] eqn:Hp; cbn; try done.
  destruct (Schema.resolveSchemaReferences fuel (_ ||' _) _)
    as [r| |] eqn:Hr; cbn; try done.
  intros [= <-]. right. eexists. split; [reflexivity|]. cbn.
  repeat split; done.
Qed.

Lemma app_singleton_neq {A : Type} (l : list A) (a : A) : l ++ [a] ≠ l.
Proof. intros H%(f_equal length). rewrite length_app in H. cbn in H. lia. Qed.

(** The route a hook call has appended. *)
Lemma onRoute_appended (fuel : nat) (ro : RouteOptions) (routes : list Route)
    (r : Route) :
  Plugin.onRoute fuel ro routes = Ok (routes ++ [r]) →
  Plugin.is_hidden ro = false
  ∧ methods r = Plugin.route_methods ro
  ∧ methods r ≠ []
  ∧ url r = ro_url ro
  ∧ name r = Plugin.route_name ro
  ∧ tags r = Some (Plugin.route_tags ro)
  ∧ headers r = VUndef.
Proof.
  intros [H|(r' & H & ? & ? & ? & ? & ? & ? & ? & ? & _)]%onRoute_inv.
  - by apply app_singleton_neq in H.
  - apply app_inv_head in H as [= ->]. done.
Qed.

(** The methods the hook keeps are those of the vocabulary. *)
Lemma route_methods_valid (ro : RouteOptions) :
  Forall (λ m, m ∈ HTTP_METHODS) (Plugin.route_methods ro).
Proof.
  unfold Plugin.route_methods. apply Forall_forall. intros m Hm.
  apply list_elem_of_In, filter_In in Hm as [_ Hm].
  unfold includes in Hm. apply existsb_exists in Hm as (m' & Hm' & Heq).
  apply String.eqb_eq in Heq as ->. by apply list_elem_of_In.
Qed.

(** ** C1: the tool name *)

Lemma replace_separators_length (url : string) :
  String.length (replace_separators url) = String.length url.
Proof. induction url as [|c url IH]; cbn; [done|by rewrite IH]. Qed.

Lemma replace_separators_get (url : string) (i : nat) (c : ascii) :
  String.get i url = Some c →
  String.get i (replace_separators url)
  = Some (if bool_decide (c ∈ ["/"; ":"; "{"; "}"]%char) then "_"%char else c).
Proof.
  revert i. induction url as [|c' url IH]; intros i; cbn; [done|].
  destruct i as [|i]; [|by apply IH].
  intros [= ->]. f_equal.
  destruct (Ascii.eqb_spec c "/") as [->|?]; [done|].
  destruct (Ascii.eqb_spec c ":") as [->|?]; [done|].
  destruct (Ascii.eqb_spec c "{") as [->|?]; [done|].
  destruct (Ascii.eqb_spec c "}") as [->|?]; [done|].
  cbn. rewrite bool_decide_eq_false_2; [done|].
  rewrite !elem_of_cons, elem_of_nil. intros [?|[?|[?|[?|[]]]]]; congruence.
Qed.

(** C1, as stated, fails: an override name that is present but empty is
    not used.  A route [GET /hello] with [config.mcp.name = ""] and
    [operationId = "hello"] is registered under the name ["hello"]. *)
Lemma onRoute_empty_override_skipped :
  let ro := {| ro_method := OneMethod "GET";
               ro_url := "/hello";
               ro_schema := VObj [("operationId", VStr "hello")];
               ro_mcp := Some {| hidden := None;
                                 mcp_name := Some "";
                                 mcp_description := None |} |} in
  ro_mcp ro ≫= mcp_name = Some ""
  ∧ ∃ r, Plugin.onRoute 1 ro [] = Ok [r]
       ∧ name r = VStr "hello"
       ∧ name r ≠ VStr "".
Proof. cbv zeta. split; [done|]. eexists. vm_compute. repeat split; done. Qed.

(** C1 (amended): the name of a registered route is the per-route override
    name if that is a non-empty string; otherwise the schema's
    [operationId] if that is truthy; otherwise the route's method (an array
    of methods joined by commas), an underscore, and the URL with each of
    the characters [/], [:], [{], [}] replaced by an underscore and every
    other character kept. *)
Theorem onRoute_name (fuel : nat) (ro : RouteOptions) (routes : list Route)
    (r : Route) :
  Plugin.onRoute fuel ro routes = Ok (routes ++ [r]) →
  let override := ro_mcp ro ≫= mcp_name in
  let operationId := opt_get (ro_schema ro) "operationId" in
  (∀ n, override = Some n → n ≠ "" → name r = VStr n)
  ∧ (override = None ∨ override = Some "" →
     truthy operationId = true → name r = operationId)
  ∧ (override = None ∨ override = Some "" →
     truthy operationId = false →
     ∃ slug,
       name r = VStr (method_string (ro_method ro) +:+ "_" +:+ slug)
       ∧ String.length slug = String.length (ro_url ro)
       ∧ ∀ i c, String.get i (ro_url ro) = Some c →
           String.get i slug
           = Some (if bool_decide (c ∈ ["/"; ":"; "{"; "}"]%char)
                   then "_"%char else c)).
Proof.
  intros (_ & _ & _ & _ & -> & _)%onRoute_appended. cbv zeta.
  unfold Plugin.route_name. repeat split.
  - intros n -> Hn. rewrite js_or_chain. cbn [of_opt_string truthy].
    apply String.eqb_neq in Hn. by rewrite Hn.
  - intros Hnone Hop.
    assert (truthy (of_opt_string (ro_mcp ro ≫= mcp_name)) = false) as Hfalse
      by (by destruct Hnone as [-> | ->]).
    by rewrite js_or_chain, Hfalse, Hop.
  - intros Hnone Hop.
    assert (truthy (of_opt_string (ro_mcp ro ≫= mcp_name)) = false) as Hfalse
      by (by destruct Hnone as [-> | ->]).
    exists (replace_separators (ro_url ro)).
    split; [|split].
    + by rewrite js_or_chain, Hfalse, Hop.
    + apply replace_separators_length.
    + apply replace_separators_get.
Qed.

Lemma onRoute_name_witness :
  let ro := {| ro_method := OneMethod "GET";
               ro_url := "/hello";
               ro_schema := VUndef;
               ro_mcp := None |} in
  let r := {| methods := ["GET"]; url := "/hello"; name := VStr "GET__hello";
              summary := VUndef; description := VUndef; tags := Some [];
              headers := VUndef; querystring := VUndef; body := VUndef;
              params := VUndef; response := VUndef |} in
  Plugin.onRoute 1 ro [] = Ok ([] ++ [r])
  ∧ ∃ slug,
      name r = VStr (method_string (ro_method ro) +:+ "_" +:+ slug)
      ∧ String.length slug = String.length (ro_url ro)
      ∧ ∀ i c, String.get i (ro_url ro) = Some c →
          String.get i slug
          = Some (if bool_decide (c ∈ ["/"; ":"; "{"; "}"]%char)
                  then "_"%char else c).
Proof.
  cbv zeta. split; [reflexivity|].
  refine (proj2 (proj2 (onRoute_name 1 _ [] _ _)) _ _);
    [reflexivity | by left | reflexivity].
Defined.

(** ** C2: classification of the arguments of a call *)








(** ** C3: example synthesis *)


(** C3, as stated, fails: a scalar node whose [example] field is present
    but falsy does not yield that field.  For the integer node
    [{type: "integer", example: 0, default: 5}] the function returns the
    default [5], not the example [0]. *)
Lemma generateExample_falsy_example_skipped :
  let schema := VObj [("type", VStr "integer"); ("example", VNum 0);
                      ("default", VNum 5)] in
  Schema.getSchemaType schema = VStr "integer"
  ∧ get schema "example" = VNum 0
  ∧ Schema.generateExampleFromSchema schema = VNum 5
  ∧ Schema.generateExampleFromSchema schema ≠ get schema "example".
Proof. vm_compute. repeat split; done. Qed.

(** C3 (amended): for a truthy schema node, example synthesis dispatches on
    the inferred type.  For a scalar type it returns the [example] field if
    that is truthy, else the [default] field if that is truthy, else the
    placeholder ["string"], [0] or [false]; for type array it returns a
    one-element array of the recursively synthesized item example when
    [items] is truthy and the empty array otherwise; for type object it
    returns an object mapping each entry of [properties] to its recursively
    synthesized example when [properties] is truthy and the empty object
    otherwise. *)
Theorem generateExampleFromSchema_dispatch (schema : value) :
  truthy schema = true →
  let type := Schema.getSchemaType schema in
  let example := Schema.generateExampleFromSchema in
  (type = VStr "string" →
     example schema
     = if truthy (get schema "example") then get schema "example"
       else if truthy (get schema "default") then get schema "default"
       else VStr "string")
  ∧ (type = VStr "number" ∨ type = VStr "integer" →
     example schema
     = if truthy (get schema "example") then get schema "example"
       else if truthy (get schema "default") then get schema "default"
       else VNum 0)
  ∧ (type = VStr "boolean" →
     example schema
     = if truthy (get schema "example") then get schema "example"
       else if truthy (get schema "default") then get schema "default"
       else VBool false)
  ∧ (type = VStr "array" →
     example schema
     = if truthy (get schema "items")
       then VArr [example (get schema "items")]
       else VArr [])
  ∧ (type = VStr "object" →
     example schema
     = if truthy (get schema "properties")
       then VObj ((λ kv, (kv.1, example kv.2))
                    <$> entries (get schema "properties"))
       else VObj []).
Proof.
  intros Htruthy. cbv zeta.
  rewrite (generateExampleFromSchema_unfold schema).
  unfold Schema.generateExample_body. rewrite Htruthy. cbn [negb]. cbv zeta.
  rewrite !js_or_chain.
  repeat split.
  - by intros ->.
  - by intros [-> | ->].
  - by intros ->.
  - by intros ->.
  - by intros ->.
Qed.

Lemma generateExampleFromSchema_dispatch_witness :
  let schema := VObj [("type", VStr "array");
                      ("items", VObj [("type", VStr "boolean")])] in
  truthy schema = true
  ∧ Schema.getSchemaType schema = VStr "array"
  ∧ Schema.generateExampleFromSchema schema
    = VArr [Schema.generateExampleFromSchema (VObj [("type", VStr "boolean")])].
Proof.
  cbv zeta. split; [reflexivity|]. split; [reflexivity|].
  pose proof (generateExampleFromSchema_dispatch
                (VObj [("type", VStr "array");
                       ("items", VObj [("type", VStr "boolean")])])
                eq_refl) as H.
  cbv zeta in H. destruct H as (_ & _ & _ & H & _). exact (H eq_refl).
Defined.

(** ** C4: reference resolution is idempotent *)

(** C4: when [resolveSchemaReferences] returns [v] for a schema and a root
    schema, resolving [v] again with the same root returns [v] itself
    (with the same bound on the recursion depth). *)
Theorem resolveSchemaReferences_idempotent
    (fuel : nat) (schema rootSchema v : value) :
  Schema.resolveSchemaReferences fuel schema rootSchema = Ok v →
  Schema.resolveSchemaReferences fuel v rootSchema = Ok v.
Proof. apply resolveSchemaReferences_idem. Qed.

Lemma resolveSchemaReferences_idempotent_witness :
  let rootSchema :=
    VObj [("defs", VObj [("t", VObj [("type", VStr "string")])])] in
  let schema :=
    VObj [("a", VObj [("$ref", VStr "#/defs/t")]);
          ("b", VArr [VObj [("$ref", VStr "#/nope")]; VNum 1])] in
  let v :=
    VObj [("a", VObj [("type", VStr "string")]);
          ("b", VArr [VObj [("$ref", VStr "#/nope")]; VNum 1])] in
  Schema.resolveSchemaReferences 4 schema rootSchema = Ok v
  ∧ Schema.resolveSchemaReferences 4 v rootSchema = Ok v.
Proof.
  cbv zeta. split; [vm_compute; reflexivity|].
  apply (resolveSchemaReferences_idempotent 4
           (VObj [("a", VObj [("$ref", VStr "#/defs/t")]);
                  ("b", VArr [VObj [("$ref", VStr "#/nope")]; VNum 1])])).
  vm_compute. reflexivity.
Defined.

(** ** C5: the property map of the input schema *)

Lemma bind_Ok_inv {A B : Type} (f : A → outcome B) (m : outcome A) (b : B) :
  m ≫= f = Ok b → ∃ a, m = Ok a ∧ f a = Ok b.
Proof. destruct m; cbn; try done. eauto. Qed.

(** One loop of [buildToolInputSchema]: a key the group declares gets the
    group's entry, every other key keeps what it had. *)
Lemma add_properties_lookup (describe : string → value → outcome value)
    (group_required : value) (props : list (string * value))
    (st st' : list (string * value) * list string) (key : string) :
  NoDup props.*1 →
  ToolConverter.add_properties describe group_required props st = Ok st' →
  match assoc key props with
  | Some schema =>
      ∃ d, describe key schema = Ok d
           ∧ assoc key st'.1 = Some (property_entry key schema d)
  | None => assoc key st'.1 = assoc key st.1
  end.
Proof.
  revert st. induction props as [|[k s] props IH]; intros st Hnodup; cbn.
  - by intros [= <-].
  - apply NoDup_cons in Hnodup as [Hk Hnodup].
    intros (d & Hd & (isreq & _ & H)%bind_Ok_inv)%bind_Ok_inv.
    specialize (IH _ Hnodup H). cbn [fst] in IH.
    destruct (String.eqb_spec key k) as [->|Hne].
    + cbn in Hk. apply assoc_None in Hk. rewrite Hk in IH.
      rewrite assoc_obj_set_eq in IH. eauto.
    + destruct (assoc key props); [done|].
      by rewrite assoc_obj_set_ne in IH.
Qed.

Lemma add_group_lookup (describe : string → value → outcome value)
    (group : value) (st st' : list (string * value) * list string)
    (key : string) :
  NoDup (declared_keys group) →
  ToolConverter.add_group describe group st = Ok st' →
  match declared group key with
  | Some schema =>
      ∃ d, describe key schema = Ok d
           ∧ assoc key st'.1 = Some (property_entry key schema d)
  | None => assoc key st'.1 = assoc key st.1
  end.
Proof.
  unfold declared_keys, declared, ToolConverter.add_group.
  destruct (truthy group); [apply add_properties_lookup|].
  by intros _ [= <-].
Qed.

Lemma header_description_Ok (key : string) (schema d : value) :
  ToolConverter.header_description key schema = Ok d →
  nullish schema = false
  ∧ d = get schema "description" ??' VStr ("Header: " +:+ key).
Proof.
  unfold ToolConverter.header_description, member.
  destruct (nullish schema); cbn; [done|]. by intros [= <-].
Qed.

Lemma includes_key_total (group_required : value) (key : string) :
  has_includes group_required = true →
  ∃ b, includes_key group_required key = Ok b.
Proof.
  unfold has_includes, includes_key.
  destruct (group_required ||' VArr []); try done; eauto.
Qed.

Lemma add_properties_total (describe : string → value → outcome value)
    (group_required : value) (props : list (string * value))
    (st : list (string * value) * list string) :
  has_includes group_required = true →
  Forall (λ kv, ∃ d, describe kv.1 kv.2 = Ok d) props →
  ∃ st', ToolConverter.add_properties describe group_required props st = Ok st'.
Proof.
  intros Hreq Hprops. revert st.
  induction Hprops as [|[k s] props (d & Hd) _ IH]; intros st; cbn; [eauto|].
  cbn in Hd. rewrite Hd. cbn.
  destruct (includes_key_total _ k Hreq) as (b & ->). cbn. apply IH.
Qed.

Lemma add_group_total (describe : string → value → outcome value)
    (group : value) (st : list (string * value) * list string) :
  has_includes (get group "required") = true →
  Forall (λ kv, ∃ d, describe kv.1 kv.2 = Ok d)
    (entries (get group "properties" ||' VObj [])) →
  ∃ st', ToolConverter.add_group describe group st = Ok st'.
Proof.
  intros Hreq Hprops. unfold ToolConverter.add_group.
  destruct (truthy group); [by apply add_properties_total|eauto].
Qed.

(** [buildToolInputSchema] throws in two places only: at
    [schema.description] of a header whose schema is [null] or absent, and
    at [.includes] of a [required] field that is truthy and neither an
    array nor a string. *)
Lemma buildToolInputSchema_total (route : Route) :
  has_includes (get (headers route) "required") = true →
  has_includes (get (params route) "required") = true →
  has_includes (get (querystring route) "required") = true →
  has_includes (get (body route) "required") = true →
  Forall (λ kv, nullish kv.2 = false)
    (entries (get (headers route) "properties" ||' VObj [])) →
  ∃ out, ToolConverter.buildToolInputSchema route = Ok out.
Proof.
  intros Hh Hp Hq Hb Hheaders. unfold ToolConverter.buildToolInputSchema.
  destruct (add_group_total ToolConverter.header_description
              (headers route) ([], []) Hh) as (st1 & ->).
  { eapply Forall_impl; [exact Hheaders|]. intros [k s] Hs. cbn in *.
    unfold ToolConverter.header_description, member. rewrite Hs. cbn. eauto. }
  cbn.
  destruct (add_group_total ToolConverter.param_description
              (params route) st1 Hp) as (st2 & ->).
  { apply Forall_forall. intros kv _. cbn. eauto. }
  cbn.
  destruct (add_group_total ToolConverter.query_description
              (querystring route) st2 Hq) as (st3 & ->).
  { apply Forall_forall. intros kv _. cbn. eauto. }
  cbn.
  destruct (add_group_total ToolConverter.body_description
              (body route) st3 Hb) as (st4 & ->).
  { apply Forall_forall. intros kv _. cbn. eauto. }
  cbn. eauto.
Qed.


(** The entry of a key in a property map the function returns. *)
Lemma buildToolInputSchema_lookup (route : Route) (key : string) :
  NoDup (declared_keys (headers route)) →
  NoDup (declared_keys (params route)) →
  NoDup (declared_keys (querystring route)) →
  NoDup (declared_keys (body route)) →
  ∀ out, ToolConverter.buildToolInputSchema route = Ok out →
  assoc key (properties out)
  = match declared (body route) key, declared (querystring route) key,
          declared (params route) key, declared (headers route) key with
    | Some s, _, _, _ =>
        Some (property_entry key s (VStr ("Body parameter: " +:+ key)))
    | None, Some s, _, _ =>
        Some (property_entry key s (VStr ("Query parameter: " +:+ key)))
    | None, None, Some s, _ =>
        Some (property_entry key s (VStr ("Path parameter: " +:+ key)))
    | None, None, None, Some s =>
        Some (property_entry key s
                (get s "description" ??' VStr ("Header: " +:+ key)))
    | None, None, None, None => None
    end.
Proof.
  intros Hh Hp Hq Hb out. unfold ToolConverter.buildToolInputSchema.
  intros (st1 & H1 & (st2 & H2 & (st3 & H3 & (st4 & H4 & [= <-])%bind_Ok_inv
    )%bind_Ok_inv)%bind_Ok_inv)%bind_Ok_inv.
  cbn [properties].
  pose proof (add_group_lookup _ _ _ _ key Hh H1) as L1.
  pose proof (add_group_lookup _ _ _ _ key Hp H2) as L2.
  pose proof (add_group_lookup _ _ _ _ key Hq H3) as L3.
  pose proof (add_group_lookup _ _ _ _ key Hb H4) as L4.
  destruct (declared (body route) key) as [s|];
    [by destruct L4 as (d & [= <-] & ->)|].
  rewrite L4.
  destruct (declared (querystring route) key) as [s|];
    [by destruct L3 as (d & [= <-] & ->)|].
  rewrite L3.
  destruct (declared (params route) key) as [s|];
    [by destruct L2 as (d & [= <-] & ->)|].
  rewrite L2.
  destruct (declared (headers route) key) as [s|]; [|by rewrite L1].
  destruct L1 as (d & [_ ->]%header_description_Ok & ->). done.
Qed.

(** C5: the four parameter groups write into one property map in the
    order headers, path parameters, query, body, and a key declared by
    more than one group is overwritten without an error.  Whenever no
    [required] field lacks an [includes] method and no header has a [null]
    schema, the function returns, and in the map it returns the entry of
    a key is the one of the last group that declares it: the body's if
    the body declares the key, else the query's, else the path
    parameters', else the headers'; a key no group declares has no
    entry.  The same holds of every result the function returns. *)
Theorem buildToolInputSchema_precedence (route : Route) (key : string) :
  NoDup (declared_keys (headers route)) →
  NoDup (declared_keys (params route)) →
  NoDup (declared_keys (querystring route)) →
  NoDup (declared_keys (body route)) →
  let entry :=
    match declared (body route) key, declared (querystring route) key,
          declared (params route) key, declared (headers route) key with
    | Some s, _, _, _ =>
        Some (property_entry key s (VStr ("Body parameter: " +:+ key)))
    | None, Some s, _, _ =>
        Some (property_entry key s (VStr ("Query parameter: " +:+ key)))
    | None, None, Some s, _ =>
        Some (property_entry key s (VStr ("Path parameter: " +:+ key)))
    | None, None, None, Some s =>
        Some (property_entry key s
                (get s "description" ??' VStr ("Header: " +:+ key)))
    | None, None, None, None => None
    end in
  (has_includes (get (headers route) "required") = true →
   has_includes (get (params route) "required") = true →
   has_includes (get (querystring route) "required") = true →
   has_includes (get (body route) "required") = true →
   Forall (λ kv, nullish kv.2 = false)
     (entries (get (headers route) "properties" ||' VObj [])) →
   ∃ out, ToolConverter.buildToolInputSchema route = Ok out
          ∧ assoc key (properties out) = entry)
  ∧ (∀ out, ToolConverter.buildToolInputSchema route = Ok out →
            assoc key (properties out) = entry).
Proof.
  intros Hh Hp Hq Hb. cbv zeta.
  pose proof (buildToolInputSchema_lookup route key Hh Hp Hq Hb) as Hlookup.
  split; [|exact Hlookup].
  intros Rh Rp Rq Rb Hheaders.
  destruct (buildToolInputSchema_total route Rh Rp Rq Rb Hheaders)
    as (out & Hout).
  exists out. split; [done|by apply Hlookup].
Qed.

Lemma buildToolInputSchema_precedence_witness :
  let group (props : list (string * value)) (req : list value) :=
    VObj [("type", VStr "object"); ("properties", VObj props);
          ("required", VArr req)] in
  let typed (t : string) := VObj [("type", VStr t)] in
  let route :=
    {| methods := ["POST"]; url := "/items/:id"; name := VStr "item";
       summary := VUndef; description := VUndef; tags := Some [];
       headers := group [("x-token", VObj [("description", VStr "Token")]);
                         ("trace", typed "string"); ("id", typed "string")]
                    [VStr "x-token"];
       params := group [("id", typed "integer"); ("trace", typed "boolean")]
                   [VStr "id"];
       querystring := group [("limit", typed "number"); ("id", typed "number")] [];
       body := group [("note", VObj []); ("limit", typed "array")] [];
       response := VUndef |} in
  ∃ out,
    ToolConverter.buildToolInputSchema route = Ok out
    ∧ (properties out).*1 = ["x-token"; "trace"; "id"; "limit"; "note"]
    ∧ required out = Some ["x-token"; "id"]
    ∧ assoc "x-token" (properties out)
      = Some (VObj [("type", VStr "string"); ("title", VStr "x-token");
                    ("description", VStr "Token")])
    ∧ assoc "trace" (properties out)
      = Some (VObj [("type", VStr "boolean"); ("title", VStr "trace");
                    ("description", VStr "Path parameter: trace")])
    ∧ assoc "id" (properties out)
      = Some (VObj [("type", VStr "number"); ("title", VStr "id");
                    ("description", VStr "Query parameter: id")])
    ∧ assoc "limit" (properties out)
      = Some (VObj [("type", VStr "array"); ("title", VStr "limit");
                    ("description", VStr "Body parameter: limit")])
    ∧ assoc "absent" (properties out) = None.
Proof.
  intros group typed route.
  assert (NoDup (declared_keys (headers route))) as Hh
    by (apply (bool_decide_unpack _); vm_compute; exact I).
  assert (NoDup (declared_keys (params route))) as Hp
    by (apply (bool_decide_unpack _); vm_compute; exact I).
  assert (NoDup (declared_keys (querystring route))) as Hq
    by (apply (bool_decide_unpack _); vm_compute; exact I).
  assert (NoDup (declared_keys (body route))) as Hb
    by (apply (bool_decide_unpack _); vm_compute; exact I).
  assert (Forall (λ kv, nullish kv.2 = false)
            (entries (get (headers route) "properties" ||' VObj [])))
    as Hheaders by (repeat constructor).
  destruct (proj1 (buildToolInputSchema_precedence route "id" Hh Hp Hq Hb)
              eq_refl eq_refl eq_refl eq_refl Hheaders) as (out & Hout & Hid).
  exists out. split; [exact Hout|].
  pose proof (proj2 (buildToolInputSchema_precedence route "x-token"
                       Hh Hp Hq Hb) out Hout) as Htoken.
  pose proof (proj2 (buildToolInputSchema_precedence route "trace"
                       Hh Hp Hq Hb) out Hout) as Htrace.
  pose proof (proj2 (buildToolInputSchema_precedence route "limit"
                       Hh Hp Hq Hb) out Hout) as Hlimit.
  pose proof (proj2 (buildToolInputSchema_precedence route "absent"
                       Hh Hp Hq Hb) out Hout) as Habsent.
  assert (ToolConverter.buildToolInputSchema route
          = Ok {| is_type := "object";
                  properties :=
                    [("x-token",
                      VObj [("type", VStr "string"); ("title", VStr "x-token");
                            ("description", VStr "Token")]);
                     ("trace",
                      VObj [("type", VStr "boolean"); ("title", VStr "trace");
                            ("description", VStr "Path parameter: trace")]);
                     ("id",
                      VObj [("type", VStr "number"); ("title", VStr "id");
                            ("description", VStr "Query parameter: id")]);
                     ("limit",
                      VObj [("type", VStr "array"); ("title", VStr "limit");
                            ("description", VStr "Body parameter: limit")]);
                     ("note",
                      VObj [("type", VStr "string"); ("title", VStr "note");
                            ("description", VStr "Body parameter: note")])];
                  required := Some ["x-token"; "id"];
                  title := "itemParameters" |}) as Hrun
    by (vm_compute; reflexivity).
  rewrite Hout in Hrun. injection Hrun as ->.
  split; [reflexivity|]. split; [reflexivity|].
  split; [exact Htoken|]. split; [exact Htrace|]. split; [exact Hid|].
  split; [exact Hlimit|exact Habsent].
Defined.

(** ** C6: hidden routes *)

Lemma register_all_app (fuel : nat) (regs1 regs2 : list RouteOptions)
    (routes : list Route) :
  Plugin.register_all fuel (regs1 ++ regs2) routes
  = Plugin.register_all fuel regs2 (Plugin.register_all fuel regs1 routes).
Proof. apply foldl_app. Qed.

(** C6: the hook creates no registry entry for a route whose configuration
    marks it hidden; the registry, and with it every tool catalogue listed
    afterwards under any options, is the one obtained without that
    registration. *)
Theorem hidden_route_never_listed (stringify : value → string)
    (options : McpPluginOptions) (fuel : nat) (ro : RouteOptions)
    (before after : list RouteOptions) (routes : list Route) :
  ro_mcp ro ≫= hidden = Some true →
  Plugin.onRoute fuel ro routes = Ok routes
  ∧ Plugin.register_all fuel (before ++ ro :: after) routes
    = Plugin.register_all fuel (before ++ after) routes
  ∧ Plugin.listTools stringify options
      (Plugin.register_all fuel (before ++ ro :: after) routes)
    = Plugin.listTools stringify options
        (Plugin.register_all fuel (before ++ after) routes).
Proof.
  intros Hhidden.
  assert (∀ routes, Plugin.onRoute fuel ro routes = Ok routes) as Hskip.
  { intros rs. unfold Plugin.onRoute, Plugin.is_hidden.
    by rewrite Hhidden. }
  assert (Plugin.register_all fuel (before ++ ro :: after) routes
          = Plugin.register_all fuel (before ++ after) routes) as Heq.
  { rewrite !register_all_app. cbn [Plugin.register_all foldl].
    unfold Plugin.registered at 2. by rewrite Hskip. }
  by rewrite Heq.
Qed.

Lemma hidden_route_never_listed_witness :
  let hello := {| ro_method := OneMethod "GET"; ro_url := "/hello";
                  ro_schema := VUndef; ro_mcp := None |} in
  let secret := {| ro_method := OneMethod "GET"; ro_url := "/secret";
                   ro_schema := VUndef;
                   ro_mcp := Some {| hidden := Some true; mcp_name := None;
                                     mcp_description := None |} |} in
  let options := Plugin.defaults
                   {| opt_name := None; opt_description := None;
                      describeFullSchema := None; skipHeadRoutes := None;
                      skipOptionsRoutes := None; mountPath := None;
                      filter := None; addDebugEndpoint := None;
                      transportType := None |} in
  Plugin.listTools to_string options
    (Plugin.register_all 1 ([hello] ++ secret :: []) [])
  = Plugin.listTools to_string options
      (Plugin.register_all 1 ([hello] ++ []) []).
Proof.
  intros hello secret options.
  exact (proj2 (proj2 (hidden_route_never_listed to_string options 1 secret
                         [hello] [] [] eq_refl))).
Defined.

(** ** C7: the messages endpoint *)

(** A session that has been closed stays absent from the session map as
    long as no connection is opened under its identifier. *)
Lemma run_closed {Transport : Type} (sid : string)
    (activeTransports : gmap string Transport)
    (evs : list (Sessions.event Transport)) :
  activeTransports !! sid = None →
  Forall (λ ev, Sessions.connects sid ev = false) evs →
  Sessions.run activeTransports evs !! sid = None.
Proof.
  intros Hnone Hevs. revert activeTransports Hnone.
  induction Hevs as [|ev evs Hev _ IH]; intros m Hnone; [done|].
  cbn [Sessions.run foldl]. apply IH.
  destruct ev as [sid' t|sid'|]; cbn in *; [| |done].
  - unfold Sessions.sse_connect. rewrite lookup_insert_ne; [done|].
    intros <-. by rewrite String.eqb_refl in Hev.
  - unfold Sessions.sse_close. destruct (decide (sid' = sid)) as [->|Hne].
    + apply lookup_delete_eq.
    + by rewrite lookup_delete_ne.
Qed.

(** C7: a message whose session identifier has no transport in the session
    map is answered 404 [{error: "Session not found"}]; when the
    transport's handler throws, 500 [{error: "Internal server error"}];
    and once the close listener has removed a session, every later message
    to its identifier is answered 404, as long as no new connection is
    given that identifier (the identifiers are the transports' random
    UUIDs). *)
Theorem messages_endpoint_responses (Transport : Type)
    (handlePostMessage : Transport → value → option Response)
    (activeTransports : gmap string Transport) (body : value) :
  (∀ sessionId,
     sessionId ≫= (activeTransports !!.) = None →
     Sessions.post_message handlePostMessage activeTransports sessionId body
     = {| status := 404;
          payload := VObj [("error", VStr "Session not found")] |})
  ∧ (∀ sessionId transport,
       activeTransports !! sessionId = Some transport →
       handlePostMessage transport body = None →
       Sessions.post_message handlePostMessage activeTransports
         (Some sessionId) body
       = {| status := 500;
            payload := VObj [("error", VStr "Internal server error")] |})
  ∧ (∀ sessionId evs,
       Forall (λ ev, Sessions.connects sessionId ev = false) evs →
       Sessions.post_message handlePostMessage
         (Sessions.run (Sessions.sse_close sessionId activeTransports) evs)
         (Some sessionId) body
       = {| status := 404;
            payload := VObj [("error", VStr "Session not found")] |}).
Proof.
  repeat split.
  - intros sessionId H. unfold Sessions.post_message. by rewrite H.
  - intros sessionId transport Ht Hthrow. unfold Sessions.post_message.
    cbn. by rewrite Ht, Hthrow.
  - intros sessionId evs Hevs. unfold Sessions.post_message. cbn.
    rewrite run_closed; [done| |done].
    unfold Sessions.sse_close. apply lookup_delete_eq.
Qed.

Lemma messages_endpoint_responses_witness :
  let handle (transport : nat) (body : value) :=
    Some {| status := 202; payload := VStr "Accepted" |} in
  let activeTransports :=
    Sessions.sse_connect "a" 1 (Sessions.sse_connect "b" 2 ∅) in
  let evs := [Sessions.Post (Some "a") VNull; Sessions.Connect "c" 3;
              Sessions.Close "b"; Sessions.Post (Some "a") VNull] in
  Sessions.post_message handle activeTransports (Some "a") VNull
  = {| status := 202; payload := VStr "Accepted" |}
  ∧ Sessions.post_message handle
      (Sessions.run (Sessions.sse_close "a" activeTransports) evs)
      (Some "a") VNull
    = {| status := 404;
         payload := VObj [("error", VStr "Session not found")] |}.
Proof.
  intros handle activeTransports evs. split; [vm_compute; reflexivity|].
  apply (proj2 (proj2 (messages_endpoint_responses nat handle
                         activeTransports VNull))).
  repeat constructor.
Defined.

(** ** C8: the route filter *)

Lemma includes_elem_of (x : string) (l : list string) :
  includes x l = true ↔ x ∈ l.
Proof.
  unfold includes. rewrite existsb_exists. split.
  - intros (y & Hy & ->%String.eqb_eq). by apply list_elem_of_In.
  - intros Hx. exists x. split; [by apply list_elem_of_In|apply String.eqb_refl].
Qed.

Lemma enabled_true (o : option bool) : enabled o = true ↔ o = Some true.
Proof. destruct o as [[]|]; cbn; split; congruence. Qed.

(** The callback of the filter rejects exactly the routes that one of the
    three rules drops. *)
Lemma keep_false (options : McpPluginOptions) (route : Route) :
  RouteFilter.keep options route = false ↔ dropped options route.
Proof.
  unfold RouteFilter.keep, dropped.
  destruct (enabled (skipHeadRoutes options)
            && includes "HEAD" (methods route)) eqn:Hhead.
  { apply andb_true_iff in Hhead as [?%enabled_true ?%includes_elem_of].
    split; [by left|done]. }
  destruct (enabled (skipOptionsRoutes options)
            && includes "OPTIONS" (methods route)) eqn:Hoptions.
  { apply andb_true_iff in Hoptions as [?%enabled_true ?%includes_elem_of].
    split; [by right; left|done]. }
  assert (¬ (skipHeadRoutes options = Some true ∧ "HEAD" ∈ methods route))
    as Hnohead.
  { intros [?%enabled_true ?%includes_elem_of].
    apply andb_false_iff in Hhead as [?|?]; congruence. }
  assert (¬ (skipOptionsRoutes options = Some true
             ∧ "OPTIONS" ∈ methods route)) as Hnooptions.
  { intros [?%enabled_true ?%includes_elem_of].
    apply andb_false_iff in Hoptions as [?|?]; congruence. }
  destruct (filter options) as [f|].
  - destruct (enabled (f route)) eqn:Hf; cbn [negb].
    + apply enabled_true in Hf. split; [done|].
      intros [?|[?|(g & [= <-] & Hne)]]; done.
    + split; [|done]. intros _. right; right. exists f. split; [done|].
      intros Htrue%enabled_true. congruence.
  - split; [done|]. intros [?|[?|(g & ? & _)]]; done.
Qed.

Lemma keep_true (options : McpPluginOptions) (route : Route) :
  RouteFilter.keep options route = true ↔ ¬ dropped options route.
Proof. rewrite <- keep_false. by destruct (RouteFilter.keep options route). Qed.

Lemma filterRoutes_sublist (options : McpPluginOptions) (routes : list Route) :
  RouteFilter.filterRoutes options routes `sublist_of` routes.
Proof.
  unfold RouteFilter.filterRoutes.
  induction routes as [|r routes IH]; cbn; [done|].
  destruct (RouteFilter.keep options r); by constructor.
Qed.

(** C8: [filterRoutes] computes its result from the route list alone,
    element by element: a route is left out when [skipHeadRoutes] is
    enabled and its methods include HEAD, when [skipOptionsRoutes] is
    enabled and its methods include OPTIONS, or when a configured custom
    predicate does not return true for it; every other route is kept, in
    its place.  The result is a subsequence of the input. *)
Theorem filterRoutes_spec (options : McpPluginOptions) :
  RouteFilter.filterRoutes options [] = []
  ∧ (∀ route routes,
       dropped options route →
       RouteFilter.filterRoutes options (route :: routes)
       = RouteFilter.filterRoutes options routes)
  ∧ (∀ route routes,
       ¬ dropped options route →
       RouteFilter.filterRoutes options (route :: routes)
       = route :: RouteFilter.filterRoutes options routes)
  ∧ (∀ routes, RouteFilter.filterRoutes options routes `sublist_of` routes).
Proof.
  split; [done|]. split; [|split].
  - intros route routes Hdrop%keep_false. unfold RouteFilter.filterRoutes.
    cbn. by rewrite Hdrop.
  - intros route routes Hkeep%keep_true. unfold RouteFilter.filterRoutes.
    cbn. by rewrite Hkeep.
  - apply filterRoutes_sublist.
Qed.

Lemma filterRoutes_spec_witness :
  let route (ms : list string) :=
    {| methods := ms; url := "/x"; name := VStr "x"; summary := VUndef;
       description := VUndef; tags := Some []; headers := VUndef;
       querystring := VUndef; body := VUndef; params := VUndef;
       response := VUndef |} in
  let options := {| opt_name := None; opt_description := None;
                    describeFullSchema := None; skipHeadRoutes := Some true;
                    skipOptionsRoutes := None; mountPath := None;
                    filter := None; addDebugEndpoint := None;
                    transportType := None |} in
  RouteFilter.filterRoutes options [route ["HEAD"]; route ["GET"]]
  = RouteFilter.filterRoutes options [route ["GET"]].
Proof.
  intros route options.
  apply (proj1 (proj2 (filterRoutes_spec options))).
  left. split; [reflexivity|left].
Defined.

(** ** C9: the methods of a registered route *)

(** A property of routes that holds of the registry at the start and of
    every route the hook appends holds of the registry throughout. *)
Lemma register_all_Forall (P : Route → Prop) (fuel : nat)
    (registrations : list RouteOptions) (routes : list Route) :
  (∀ ro routes r, Plugin.onRoute fuel ro routes = Ok (routes ++ [r]) → P r) →
  Forall P routes →
  Forall P (Plugin.register_all fuel registrations routes).
Proof.
  intros Hstep. revert routes.
  induction registrations as [|ro regs IH]; intros routes Hroutes; [done|].
  cbn [Plugin.register_all foldl]. apply IH. unfold Plugin.registered.
  destruct (Plugin.onRoute fuel ro routes) as [routes'| |] eqn:Hro; try done.
  destruct (onRoute_inv _ _ _ _ Hro) as [->|(r & -> & _)]; [done|].
  apply Forall_app. split; [done|]. constructor; [|done]. by eapply Hstep.
Qed.

Lemma route_methods_filter (ro : RouteOptions) :
  Plugin.route_methods ro
  = base.filter (λ m, m ∈ HTTP_METHODS) (Plugin.methodList ro).
Proof.
  unfold Plugin.route_methods.
  induction (Plugin.methodList ro) as [|m ms IH]; [done|].
  cbn [List.filter]. rewrite filter_cons, IH.
  destruct (includes m HTTP_METHODS) eqn:Hm.
  - apply includes_elem_of in Hm. by rewrite decide_True.
  - apply not_true_iff_false in Hm. rewrite includes_elem_of in Hm.
    by rewrite decide_False.
Qed.

(** C9: every route of the registry has at least one method, and all its
    methods are of the vocabulary DELETE, GET, HEAD, PATCH, POST, PUT,
    OPTIONS.  The hook keeps of the declared methods those of the
    vocabulary, in their order, and appends nothing when none is left. *)
Theorem registry_methods_valid (fuel : nat) (registrations : list RouteOptions) :
  Forall (λ r, methods r ≠ [] ∧ Forall (λ m, m ∈ HTTP_METHODS) (methods r))
    (Plugin.register_all fuel registrations [])
  ∧ (∀ ro routes r,
       Plugin.onRoute fuel ro routes = Ok (routes ++ [r]) →
       methods r = base.filter (λ m, m ∈ HTTP_METHODS) (Plugin.methodList ro))
  ∧ (∀ ro routes,
       Forall (λ m, m ∉ HTTP_METHODS) (Plugin.methodList ro) →
       Plugin.onRoute fuel ro routes = Ok routes).
Proof.
  split; [|split].
  - apply register_all_Forall; [|done].
    intros ro routes r (_ & Hm & Hne & _)%onRoute_appended.
    split; [done|]. rewrite Hm. apply route_methods_valid.
  - intros ro routes r (_ & -> & _)%onRoute_appended.
    apply route_methods_filter.
  - intros ro routes Hnone. unfold Plugin.onRoute.
    destruct (Plugin.is_hidden ro); [done|].
    rewrite route_methods_filter.
    replace (base.filter _ _) with (@nil string); [done|].
    symmetry. induction Hnone as [|m ms Hm _ IH]; [done|].
    by rewrite filter_cons, decide_False.
Qed.

Lemma registry_methods_valid_witness :
  let ro := {| ro_method := ManyMethods ["PROPFIND"; "TRACE"];
               ro_url := "/dav"; ro_schema := VUndef; ro_mcp := None |} in
  Plugin.onRoute 1 ro [] = Ok [].
Proof.
  intros ro.
  apply (proj2 (proj2 (registry_methods_valid 1 []))).
  apply (bool_decide_unpack _). vm_compute. exact I.
Defined.

(** ** C10: the two tool converters *)

(** C10 fails: the two converters are not extensionally equal.  For a
    route with a description and no summary, [tool-converter.ts] describes
    the tool by the description alone, while the variant starts from the
    absent summary and yields ["undefined"], a blank line and the
    description.  Under [describeFullSchema] the texts differ for every
    [JSON.stringify] as well: the variant puts a line break between
    [**Output Schema:**] and the code fence, [tool-converter.ts] does
    not.  Name and input schema agree. *)
Theorem tool_converters_disagree (stringify : value → string) :
  let no_options := {| opt_name := None; opt_description := None;
                       describeFullSchema := None; skipHeadRoutes := None;
                       skipOptionsRoutes := None; mountPath := None;
                       filter := None; addDebugEndpoint := None;
                       transportType := None |} in
  let full_schema := {| opt_name := None; opt_description := None;
                        describeFullSchema := Some true; skipHeadRoutes := None;
                        skipOptionsRoutes := None; mountPath := None;
                        filter := None; addDebugEndpoint := None;
                        transportType := None |} in
  let route (s r : value) :=
    {| methods := ["GET"]; url := "/hello"; name := VStr "hello";
       summary := s; description := VStr "Says hello"; tags := Some [];
       headers := VUndef; querystring := VUndef; body := VUndef;
       params := VUndef; response := r |} in
  Plugin.onRoute 1
    {| ro_method := OneMethod "GET"; ro_url := "/hello";
       ro_schema := VObj [("operationId", VStr "hello");
                          ("description", VStr "Says hello")];
       ro_mcp := None |} []
  = Ok [route VUndef VUndef]
  ∧ tool_description
      <$> ToolConverter.convertRouteToTool stringify no_options
            (route VUndef VUndef)
    = Ok (VStr "Says hello")
  ∧ tool_description
      <$> ToolConverterConcat.convertRouteToTool stringify no_options
            (route VUndef VUndef)
    = Ok (VStr ("undefined" +:+ nlnl +:+ "Says hello"))
  ∧ ToolConverter.convertRouteToTool stringify full_schema
      (route (VStr "Hello") (VObj [("type", VStr "string")]))
    ≠ ToolConverterConcat.convertRouteToTool stringify full_schema
        (route (VStr "Hello") (VObj [("type", VStr "string")]))
  ∧ ∀ options r,
      ToolConverter.buildToolName r = ToolConverterConcat.buildToolName r
      ∧ ToolConverter.buildToolInputSchema r
        = ToolConverterConcat.buildToolInputSchema r
      ∧ (ToolConverter.buildToolDescription stringify options r
         = ToolConverterConcat.buildToolDescription stringify options r →
         ToolConverter.convertRouteToTool stringify options r
         = ToolConverterConcat.convertRouteToTool stringify options r).
Proof.
  cbv zeta. split; [reflexivity|]. split; [reflexivity|].
  split; [reflexivity|]. split.
  - unfold ToolConverter.convertRouteToTool,
      ToolConverterConcat.convertRouteToTool. cbn.
    intros [= H].
    rewrite !append_assoc in H. cbn in H.
    repeat (apply append_inv_head in H; cbn in H).
    discriminate H.
  - intros options r. split; [done|]. split; [done|].
    unfold ToolConverter.convertRouteToTool,
      ToolConverterConcat.convertRouteToTool. by intros ->.
Qed.

(** ** Further properties of src/services/schema.ts *)

(** [getSchemaType] never returns a falsy value: its result is the
    schema's truthy [type] member, or one of ["string"], ["object"],
    ["array"]. *)
Theorem getSchemaType_truthy (schema : value) :
  truthy (Schema.getSchemaType schema) = true
  ∧ (Schema.getSchemaType schema = get schema "type"
     ∨ Schema.getSchemaType schema ∈ [VStr "string"; VStr "object"; VStr "array"]).
Proof.
  unfold Schema.getSchemaType.
  destruct (truthy schema); cbn [negb]; [|split; [done|right; left]].
  destruct (truthy (get schema "type")) eqn:Htype; [split; [done|by left]|].
  destruct (truthy (get schema "properties"));
    [split; [done|right; right; left]|].
  destruct (truthy (get schema "items")); split; try done; right.
  - right; right; left.
  - left.
Qed.

Lemma height_field (fields : list (string * value)) (kv : string * value) :
  kv ∈ fields → height kv.2 < height (VObj fields).
Proof. cbn [height]. induction 1 as [|?? ? _ IH]; cbn; lia. Qed.

Lemma ref_free_resolved (fuel : nat) (schema rootSchema : value) :
  ref_free schema = true → height schema < fuel →
  Schema.resolveSchemaReferences fuel schema rootSchema = Ok schema.
Proof.
  revert schema. induction fuel as [|n IH]; intros schema Hfree Hheight; [lia|].
  cbn [Schema.resolveSchemaReferences].
  destruct (negb (truthy schema)) eqn:Htruthy; [done|].
  destruct schema as [| | | | |elems|fields]; try done; cbn [is_object].
  - change (get (VArr elems) "$ref") with VUndef. cbn [truthy].
    erewrite mapM_Ok_intro; [done|].
    apply Forall_Forall2_diag, Forall_forall. intros e He. apply IH.
    + cbn [ref_free] in Hfree. rewrite forallb_forall in Hfree.
      by apply Hfree, list_elem_of_In.
    + pose proof (height_elem _ _ He). lia.
  - cbn [ref_free] in Hfree. apply andb_true_iff in Hfree as [Hnoref Hfree].
    cbn [get]. apply negb_true_iff in Hnoref. rewrite Hnoref.
    erewrite mapM_Ok_intro; [done|].
    apply Forall_Forall2_diag, Forall_forall. intros [k v] Hkv.
    cbn [entries] in Hkv. cbn [fst snd]. rewrite IH; [done| |].
    + rewrite forallb_forall in Hfree.
      by apply (Hfree (k, v)), list_elem_of_In.
    + pose proof (height_field _ _ Hkv). cbn [snd] in *. lia.
Qed.

(** A schema in which no object carries a truthy [$ref] is resolved to a
    deep copy of itself, whatever the root schema; the recursion goes no
    deeper than the schema's nesting. *)
Theorem resolveSchemaReferences_ref_free (schema rootSchema : value) :
  ref_free schema = true →
  Schema.resolveSchemaReferences (S (height schema)) schema rootSchema
  = Ok schema.
Proof. intros Hfree. apply ref_free_resolved; [done|lia]. Qed.

Lemma resolveSchemaReferences_ref_free_witness :
  let schema :=
    VObj [("type", VStr "object");
          ("properties", VObj [("tags", VObj [("items", VObj [("$ref", VStr "")])])]);
          ("required", VArr [VStr "tags"])] in
  Schema.resolveSchemaReferences (S (height schema)) schema VUndef = Ok schema.
Proof.
  intros schema. exact (resolveSchemaReferences_ref_free schema VUndef eq_refl).
Defined.

(** A reference that leads back to the object that carries it is followed
    without end (in JavaScript, until the call stack overflows): no bound
    on the recursion depth lets the call return. *)
Theorem resolveSchemaReferences_self_reference (fuel : nat)
    (schema rootSchema : value) (refPath : list string) :
  is_object schema = true →
  truthy (get schema "$ref") = true →
  Schema.ref_path (get schema "$ref") = Ok refPath →
  Schema.follow_ref refPath rootSchema = Ok (Some schema) →
  Schema.resolveSchemaReferences fuel schema rootSchema = OutOfFuel.
Proof.
  intros Hobj Href Hpath Hfollow.
  assert (truthy schema = true) as Htruthy.
  { destruct schema; try done. }
  induction fuel as [|n IH]; [done|].
  cbn [Schema.resolveSchemaReferences].
  rewrite Htruthy, Hobj, Href, Hpath. cbn. by rewrite Hfollow.
Qed.

Lemma resolveSchemaReferences_self_reference_witness :
  Schema.resolveSchemaReferences 1000
    (VObj [("$ref", VStr "#/definitions/node")])
    (VObj [("definitions",
            VObj [("node", VObj [("$ref", VStr "#/definitions/node")])])])
  = OutOfFuel.
Proof.
  exact (resolveSchemaReferences_self_reference 1000
           (VObj [("$ref", VStr "#/definitions/node")])
           (VObj [("definitions",
                   VObj [("node", VObj [("$ref", VStr "#/definitions/node")])])])
           ["definitions"; "node"] eq_refl eq_refl eq_refl eq_refl).
Defined.

(** Resolution keeps the shape of a container: an object without a truthy
    [$ref] becomes an object with the same keys in the same order, an
    array becomes an array of the same length. *)
Theorem resolveSchemaReferences_shape (fuel : nat) (rootSchema v : value) :
  (∀ fields,
     truthy (get (VObj fields) "$ref") = false →
     Schema.resolveSchemaReferences fuel (VObj fields) rootSchema = Ok v →
     ∃ fields', v = VObj fields' ∧ fields'.*1 = fields.*1)
  ∧ (∀ elems,
       Schema.resolveSchemaReferences fuel (VArr elems) rootSchema = Ok v →
       ∃ elems', v = VArr elems' ∧ length elems' = length elems).
Proof.
  destruct fuel as [|n]; [done|]. split.
  - intros fields Href. cbn [Schema.resolveSchemaReferences negb truthy is_object].
    rewrite Href. intros (l' & H%mapM_Ok_inv & ->)%fmap_Ok_inv.
    exists l'. split; [done|]. cbn [entries] in H. clear Href.
    induction H as [|kv kv' ?? Hkv _ IH]; [done|]. cbn. f_equal; [|done].
    by apply fmap_Ok_inv in Hkv as (w & _ & ->).
  - intros elems. cbn [Schema.resolveSchemaReferences negb truthy is_object].
    change (get (VArr elems) "$ref") with VUndef. cbn [truthy].
    intros (l' & H%mapM_Ok_inv & ->)%fmap_Ok_inv.
    exists l'. split; [done|]. symmetry. by eapply Forall2_length.
Qed.

Lemma resolveSchemaReferences_shape_witness :
  let rootSchema := VObj [("defs", VObj [("t", VObj [("type", VStr "string")])])] in
  let fields := [("a", VObj [("$ref", VStr "#/defs/t")]); ("b", VNum 1)] in
  ∃ fields',
    Schema.resolveSchemaReferences 5 (VObj fields) rootSchema = Ok (VObj fields')
    ∧ fields'.*1 = fields.*1.
Proof.
  intros rootSchema fields.
  assert (Schema.resolveSchemaReferences 5 (VObj fields) rootSchema
          = Ok (VObj [("a", VObj [("type", VStr "string")]); ("b", VNum 1)]))
    as Hresolved by (vm_compute; reflexivity).
  destruct (proj1 (resolveSchemaReferences_shape 5 rootSchema _)
              fields eq_refl Hresolved) as (fields' & [= <-] & Hkeys).
  eexists. split; [exact Hresolved|exact Hkeys].
Defined.

(** ** Further properties of the tool converters *)

Lemma obj_set_keys_elem_of {A : Type} (k k' : string) (v : A)
    (l : list (string * A)) :
  k' ∈ (obj_set k v l).*1 ↔ k' = k ∨ k' ∈ l.*1.
Proof.
  rewrite obj_set_keys. case_bool_decide as Hin.
  - split; [by right|]. by intros [->|?].
  - rewrite elem_of_app, list_elem_of_singleton. tauto.
Qed.

(** What the loops of [buildToolInputSchema] maintain: the property map
    has no repeated key, and every required key is a key of the map. *)
Lemma add_properties_wf (describe : string → value → outcome value)
    (group_required : value) (props : list (string * value))
    (st st' : list (string * value) * list string) :
  ToolConverter.add_properties describe group_required props st = Ok st' →
  NoDup st.1.*1 ∧ (∀ k, k ∈ st.2 → k ∈ st.1.*1) →
  NoDup st'.1.*1 ∧ (∀ k, k ∈ st'.2 → k ∈ st'.1.*1).
Proof.
  revert st. induction props as [|[k s] props IH]; intros st; cbn.
  - by intros [= <-].
  - intros (d & _ & (isreq & _ & H)%bind_Ok_inv)%bind_Ok_inv [Hnodup Hreq].
    apply (IH _ H). cbn [fst snd]. split; [by apply obj_set_NoDup|].
    intros k' Hk'. apply obj_set_keys_elem_of.
    destruct isreq; [|by right; apply Hreq].
    apply elem_of_app in Hk' as [?|Hk']; [right; by apply Hreq|].
    apply list_elem_of_singleton in Hk' as ->. by left.
Qed.

Lemma add_group_wf (describe : string → value → outcome value)
    (group : value) (st st' : list (string * value) * list string) :
  ToolConverter.add_group describe group st = Ok st' →
  NoDup st.1.*1 ∧ (∀ k, k ∈ st.2 → k ∈ st.1.*1) →
  NoDup st'.1.*1 ∧ (∀ k, k ∈ st'.2 → k ∈ st'.1.*1).
Proof.
  unfold ToolConverter.add_group.
  destruct (truthy group); [apply add_properties_wf|by intros [= <-]].
Qed.

(** The input schema of a tool is well formed: its property map has no
    repeated key, its [required] list is absent rather than empty, and
    every required key is a key of the property map. *)
Theorem buildToolInputSchema_wf (route : Route) (out : InputSchema) :
  ToolConverter.buildToolInputSchema route = Ok out →
  NoDup (properties out).*1
  ∧ required out ≠ Some []
  ∧ ∀ req k, required out = Some req → k ∈ req → k ∈ (properties out).*1.
Proof.
  unfold ToolConverter.buildToolInputSchema.
  intros (st1 & H1 & (st2 & H2 & (st3 & H3 & (st4 & H4 & [= <-])%bind_Ok_inv
    )%bind_Ok_inv)%bind_Ok_inv)%bind_Ok_inv.
  cbn [properties required].
  assert (NoDup st4.1.*1 ∧ (∀ k, k ∈ st4.2 → k ∈ st4.1.*1)) as [Hnodup Hreq].
  { apply (add_group_wf _ _ _ _ H4), (add_group_wf _ _ _ _ H3),
      (add_group_wf _ _ _ _ H2), (add_group_wf _ _ _ _ H1).
    split; [constructor|]. by intros k ?%elem_of_nil. }
  split; [done|]. destruct st4.2 as [|k0 req0] eqn:Hst; [by split|].
  split; [done|]. intros req k [= <-]. apply Hreq.
Qed.

Lemma buildToolInputSchema_wf_witness :
  let group (r : string) :=
    VObj [("properties", VObj [("id", VObj []); (r, VObj [])]);
          ("required", VArr [VStr "id"])] in
  let route := {| methods := ["POST"]; url := "/items/:id"; name := VStr "item";
                  summary := VUndef; description := VUndef; tags := Some [];
                  headers := VUndef; querystring := group "q";
                  body := group "b"; params := group "p";
                  response := VUndef |} in
  ∃ out, ToolConverter.buildToolInputSchema route = Ok out
    ∧ required out = Some ["id"; "id"; "id"]
    ∧ NoDup (properties out).*1.
Proof.
  intros group route. eexists. split; [reflexivity|]. split; [reflexivity|].
  exact (proj1 (buildToolInputSchema_wf route _ eq_refl)).
Defined.

(** [buildToolInputSchema] returns whenever every group's [required]
    field is falsy, an array or a string, and no header is declared with a
    [null] or absent schema; the schemas of path, query and body
    parameters are not constrained. *)
Theorem buildToolInputSchema_returns (route : Route) :
  has_includes (get (headers route) "required") = true →
  has_includes (get (params route) "required") = true →
  has_includes (get (querystring route) "required") = true →
  has_includes (get (body route) "required") = true →
  Forall (λ kv, nullish kv.2 = false)
    (entries (get (headers route) "properties" ||' VObj [])) →
  ∃ out, ToolConverter.buildToolInputSchema route = Ok out.
Proof. apply buildToolInputSchema_total. Qed.

Lemma buildToolInputSchema_returns_witness :
  let route := {| methods := ["GET"]; url := "/items"; name := VStr "items";
                  summary := VUndef; description := VUndef; tags := Some [];
                  headers := VObj [("properties", VObj [("x-token", VObj [])])];
                  querystring :=
                    VObj [("properties", VObj [("limit", VNull)]);
                          ("required", VStr "limit")];
                  body := VUndef; params := VNull; response := VUndef |} in
  ∃ out, ToolConverter.buildToolInputSchema route = Ok out.
Proof.
  intros route.
  apply (buildToolInputSchema_returns route); try reflexivity.
  repeat constructor.
Defined.

(** Without summary, description, tags and response text, the description
    of a tool is the route's name. *)
Theorem buildToolDescription_fallback (stringify : value → string)
    (options : McpPluginOptions) (route : Route) :
  truthy (summary route) = false →
  truthy (description route) = false →
  tags route = None ∨ tags route = Some [] →
  truthy (response route) && enabled (describeFullSchema options) = false →
  ToolConverter.buildToolDescription stringify options route = name route.
Proof.
  intros Hsummary Hdescription Htags Hresponse.
  unfold ToolConverter.buildToolDescription. rewrite Hresponse.
  destruct Htags as [-> | ->]; cbn; by rewrite Hsummary, Hdescription.
Qed.

Lemma buildToolDescription_fallback_witness :
  let route := {| methods := ["GET"]; url := "/hello"; name := VStr "GET__hello";
                  summary := VUndef; description := VUndef; tags := Some [];
                  headers := VUndef; querystring := VUndef; body := VUndef;
                  params := VUndef; response := VUndef |} in
  ToolConverter.buildToolDescription to_string
    (Plugin.defaults
       {| opt_name := None; opt_description := None;
          describeFullSchema := None; skipHeadRoutes := None;
          skipOptionsRoutes := None; mountPath := None;
          filter := None; addDebugEndpoint := None;
          transportType := None |}) route
  = VStr "GET__hello".
Proof.
  intros route.
  apply (buildToolDescription_fallback to_string _ route);
    [reflexivity | reflexivity | by right | reflexivity].
Defined.

(** Where the two converters agree: for a route whose summary is a
    non-empty string, when no response text is added, both build the same
    description, and so the same tool. *)
Theorem tool_converters_agree (stringify : value → string)
    (options : McpPluginOptions) (route : Route) (s : string) :
  summary route = VStr s → s ≠ "" →
  truthy (response route) && enabled (describeFullSchema options) = false →
  ToolConverter.convertRouteToTool stringify options route
  = ToolConverterConcat.convertRouteToTool stringify options route.
Proof.
  intros Hsummary Hs%String.eqb_neq Hresponse.
  unfold ToolConverter.convertRouteToTool,
    ToolConverterConcat.convertRouteToTool.
  replace (ToolConverterConcat.buildToolDescription stringify options route)
    with (ToolConverter.buildToolDescription stringify options route); [done|].
  unfold ToolConverter.buildToolDescription,
    ToolConverterConcat.buildToolDescription, ToolConverterConcat.append.
  rewrite Hresponse, Hsummary.
  destruct (truthy (description route)) eqn:Hd;
    destruct (tags route) as [[|t ts]|]; cbn; rewrite Hs, ?Hd; cbn;
    try reflexivity.
  all: assert (nullish (description route) = false) as ->
         by (by destruct (description route)).
  all: by rewrite ?append_assoc.
Qed.

Lemma tool_converters_agree_witness :
  let route := {| methods := ["GET"]; url := "/hello"; name := VStr "hello";
                  summary := VStr "Hello World";
                  description := VStr "Says hello";
                  tags := Some [VStr "demo"; VStr "greeting"];
                  headers := VUndef; querystring := VUndef; body := VUndef;
                  params := VUndef; response := VUndef |} in
  let options := {| opt_name := None; opt_description := None;
                    describeFullSchema := None; skipHeadRoutes := None;
                    skipOptionsRoutes := None; mountPath := None;
                    filter := None; addDebugEndpoint := None;
                    transportType := None |} in
  ToolConverter.convertRouteToTool to_string options route
  = ToolConverterConcat.convertRouteToTool to_string options route.
Proof.
  intros route options.
  apply (tool_converters_agree to_string options route "Hello World");
    [reflexivity | done | reflexivity].
Defined.

(** ** Further properties of the route filter and the plugin *)

Lemma filterRoutes_elem_of (options : McpPluginOptions) (routes : list Route)
    (r : Route) :
  r ∈ RouteFilter.filterRoutes options routes
  ↔ r ∈ routes ∧ ¬ dropped options r.
Proof.
  rewrite <- keep_true. unfold RouteFilter.filterRoutes.
  induction routes as [|r' routes IH]; cbn.
  - rewrite elem_of_nil. tauto.
  - destruct (RouteFilter.keep options r') eqn:Hkeep;
      rewrite ?elem_of_cons, IH.
    + split; [intros [->|[? ?]]; tauto|]. intros [[->|?] ?]; tauto.
    + split; [tauto|]. intros [[->|?] ?]; [congruence|done].
Qed.

Lemma filterRoutes_app (options : McpPluginOptions) (routes1 routes2 : list Route) :
  RouteFilter.filterRoutes options (routes1 ++ routes2)
  = RouteFilter.filterRoutes options routes1
    ++ RouteFilter.filterRoutes options routes2.
Proof.
  unfold RouteFilter.filterRoutes.
  induction routes1 as [|r routes1 IH]; cbn; [done|].
  destruct (RouteFilter.keep options r); cbn; by rewrite IH.
Qed.

(** Filtering is idempotent: a catalogue's routes pass the filter
    unchanged. *)
Theorem filterRoutes_idempotent (options : McpPluginOptions)
    (routes : list Route) :
  RouteFilter.filterRoutes options (RouteFilter.filterRoutes options routes)
  = RouteFilter.filterRoutes options routes.
Proof.
  unfold RouteFilter.filterRoutes.
  induction routes as [|r routes IH]; cbn; [done|].
  destruct (RouteFilter.keep options r) eqn:Hkeep; [|done].
  cbn. by rewrite Hkeep, IH.
Qed.

(** With the plugin's defaults, that is when [skipHeadRoutes] and
    [skipOptionsRoutes] are not given, no route with a HEAD or an OPTIONS
    method passes the filter. *)
Theorem default_filter_skips_head_and_options (_options : McpPluginOptions)
    (routes : list Route) (r : Route) :
  skipHeadRoutes _options = None →
  skipOptionsRoutes _options = None →
  r ∈ RouteFilter.filterRoutes (Plugin.defaults _options) routes →
  ("HEAD" ∉ methods r) ∧ ("OPTIONS" ∉ methods r).
Proof.
  intros Hhead Hoptions [_ Hkept]%filterRoutes_elem_of.
  unfold dropped in Hkept. cbn in Hkept. rewrite Hhead, Hoptions in Hkept.
  cbn in Hkept. tauto.
Qed.

Lemma default_filter_skips_head_and_options_witness :
  let route (ms : list string) :=
    {| methods := ms; url := "/x"; name := VStr "x"; summary := VUndef;
       description := VUndef; tags := Some []; headers := VUndef;
       querystring := VUndef; body := VUndef; params := VUndef;
       response := VUndef |} in
  let _options := {| opt_name := None; opt_description := None;
                     describeFullSchema := None; skipHeadRoutes := None;
                     skipOptionsRoutes := None; mountPath := None;
                     filter := None; addDebugEndpoint := None;
                     transportType := None |} in
  ("HEAD" ∉ methods (route ["GET"])) ∧ ("OPTIONS" ∉ methods (route ["GET"])).
Proof.
  intros route _options.
  apply (default_filter_skips_head_and_options _options
           [route ["GET"; "HEAD"]; route ["GET"]] (route ["GET"]));
    [reflexivity | reflexivity |].
  vm_compute. left.
Defined.

(** The registry only grows, at its end, and by at most one route per
    registration. *)
Theorem register_all_extends (fuel : nat) (registrations : list RouteOptions)
    (routes : list Route) :
  routes `prefix_of` Plugin.register_all fuel registrations routes
  ∧ length (Plugin.register_all fuel registrations routes)
    ≤ length routes + length registrations.
Proof.
  revert routes. induction registrations as [|ro regs IH]; intros routes.
  - cbn. split; [done|lia].
  - cbn [Plugin.register_all foldl].
    destruct (IH (Plugin.registered fuel routes ro)) as [Hprefix Hlength].
    assert (routes `prefix_of` Plugin.registered fuel routes ro
            ∧ length (Plugin.registered fuel routes ro) ≤ S (length routes))
      as [Hstep Hone].
    { unfold Plugin.registered.
      destruct (Plugin.onRoute fuel ro routes) as [routes'| |] eqn:Hro;
        [|split; [done|lia]..].
      destruct (onRoute_inv _ _ _ _ Hro) as [->|(r & -> & _)].
      - split; [done|lia].
      - split; [by apply prefix_app_r|]. rewrite length_app. cbn. lia. }
    split; [by etrans|]. cbn [length].
    unfold Plugin.register_all in Hlength. lia.
Qed.

Lemma mapM_app_Ok {A B : Type} (f : A → outcome B) (l1 l2 : list A)
    (r : list B) :
  mapM f (l1 ++ l2) = Ok r →
  ∃ r1 r2, mapM f l1 = Ok r1 ∧ mapM f l2 = Ok r2 ∧ r = r1 ++ r2.
Proof.
  intros (r1 & r2 & H1 & H2 & ->)%mapM_Ok_inv%Forall2_app_inv_l.
  exists r1, r2. split; [by apply mapM_Ok_intro|].
  split; [by apply mapM_Ok_intro|done].
Qed.

(** Registering further routes never removes or reorders the tools
    already listed: the catalogue of a registry is a prefix of the
    catalogue of every registry that extends it. *)
Theorem listTools_extends (stringify : value → string)
    (options : McpPluginOptions) (routes more : list Route)
    (tools' : list McpTool) :
  Plugin.listTools stringify options (routes ++ more) = Ok tools' →
  ∃ tools, Plugin.listTools stringify options routes = Ok tools
           ∧ tools `prefix_of` tools'.
Proof.
  unfold Plugin.listTools. rewrite filterRoutes_app.
  intros (r1 & r2 & H1 & _ & ->)%mapM_app_Ok.
  exists r1. split; [done|]. by apply prefix_app_r.
Qed.

Lemma listTools_extends_witness :
  let route (n : string) :=
    {| methods := ["GET"]; url := "/" +:+ n; name := VStr n; summary := VUndef;
       description := VUndef; tags := Some []; headers := VUndef;
       querystring := VUndef; body := VUndef; params := VUndef;
       response := VUndef |} in
  let options := {| opt_name := None; opt_description := None;
                    describeFullSchema := None; skipHeadRoutes := None;
                    skipOptionsRoutes := None; mountPath := None;
                    filter := None; addDebugEndpoint := None;
                    transportType := None |} in
  ∃ tools, Plugin.listTools to_string options [route "a"] = Ok tools
    ∧ length tools ≤ 2.
Proof.
  intros route options.
  destruct (listTools_extends to_string options [route "a"] [route "b"] _ eq_refl)
    as (tools & Htools & Hprefix).
  exists tools. split; [exact Htools|].
  apply prefix_length in Hprefix. exact Hprefix.
Defined.

Lemma is_str_eq (v : value) (s : string) : is_str v s = true ↔ v = VStr s.
Proof.
  destruct v; cbn; try (split; congruence).
  rewrite String.eqb_eq. split; congruence.
Qed.

Lemma listTools_names (stringify : value → string) (options : McpPluginOptions)
    (routes : list Route) (tools : list McpTool) :
  Plugin.listTools stringify options routes = Ok tools →
  tool_name <$> tools = name <$> RouteFilter.filterRoutes options routes.
Proof.
  unfold Plugin.listTools. intros H%mapM_Ok_inv.
  induction H as [|r t ?? Hrt _ IH]; [done|]. cbn. f_equal; [|done].
  unfold ToolConverter.convertRouteToTool in Hrt.
  apply bind_Ok_inv in Hrt as (s & _ & [= <-]). done.
Qed.

(** The tools that can be called are the tools that are listed: a call is
    rejected as unknown exactly when no tool of the catalogue has the
    requested name. *)
Theorem callTool_known_iff_listed (stringify : value → string)
    (options : McpPluginOptions) (builtin_members : value → list string)
    (encodeURIComponent : string → string)
    (parse : string → option value) (inject : InjectOptions → option string)
    (routes : list Route) (tools : list McpTool) (toolName : string)
    (arguments : option (list (string * value))) :
  Plugin.listTools stringify options routes = Ok tools →
  Plugin.callTool stringify options builtin_members encodeURIComponent parse
    inject routes toolName arguments
  = ToolNotFound ("Tool '" +:+ toolName +:+ "' not found")
  ↔ VStr toolName ∉ tool_name <$> tools.
Proof.
  intros ->%listTools_names. unfold Plugin.callTool.
  destruct (find _ _) as [r|] eqn:Hfind.
  - apply find_some in Hfind as [Hin Hname%is_str_eq].
    split.
    + by destruct arguments as [args|];
        [destruct (RequestHandler.handleToolCall _ _ _ _ _ _ _)|].
    + intros []. apply list_elem_of_fmap. exists r. split; [done|].
      by apply list_elem_of_In.
  - split; [|done]. intros _ (r & Hname & Hr)%list_elem_of_fmap.
    apply list_elem_of_In in Hr.
    pose proof (find_none _ _ Hfind r Hr) as Hno. cbn in Hno.
    apply not_true_iff_false in Hno. by apply Hno, is_str_eq.
Qed.

Lemma callTool_known_iff_listed_witness :
  let route := {| methods := ["GET"]; url := "/hello"; name := VStr "hello";
                  summary := VUndef; description := VUndef; tags := Some [];
                  headers := VUndef; querystring := VUndef; body := VUndef;
                  params := VUndef; response := VUndef |} in
  let options := {| opt_name := None; opt_description := None;
                    describeFullSchema := None; skipHeadRoutes := None;
                    skipOptionsRoutes := None; mountPath := None;
                    filter := None; addDebugEndpoint := None;
                    transportType := None |} in
  Plugin.callTool to_string options (λ _, []) (λ s, s) (λ _, None)
    (λ _, Some "ok") [route] "bye" (Some [])
  = ToolNotFound "Tool 'bye' not found".
Proof.
  intros route options.
  apply (callTool_known_iff_listed to_string options (λ _, []) (λ s, s)
           (λ _, None) (λ _, Some "ok") [route] _ "bye" (Some []) eq_refl).
  cbn. rewrite list_elem_of_singleton. discriminate.
Defined.

(** The request injected for a route of the registry carries a method,
    and it is one of the vocabulary: the first of the route's methods. *)
Theorem inject_options_method (builtin_members : value → list string)
    (encodeURIComponent : string → string)
    (fuel : nat) (registrations : list RouteOptions) (r : Route)
    (args : list (string * value)) :
  r ∈ Plugin.register_all fuel registrations [] →
  ∃ m, io_method (RequestHandler.inject_options builtin_members
                    encodeURIComponent r args)
       = Some m
       ∧ m ∈ HTTP_METHODS.
Proof.
  intros Hr.
  assert (Forall (λ r, methods r ≠ []
                       ∧ Forall (λ m, m ∈ HTTP_METHODS) (methods r))
            (Plugin.register_all fuel registrations [])) as Hvalid.
  { apply register_all_Forall; [|done].
    intros ro routes r' (_ & Hm & Hne & _)%onRoute_appended.
    split; [done|]. rewrite Hm. apply route_methods_valid. }
  rewrite Forall_forall in Hvalid. destruct (Hvalid r Hr) as [Hne Hall].
  cbn. destruct (methods r) as [|m ms]; [done|].
  exists m. split; [done|]. by apply Forall_cons in Hall as [? _].
Qed.

Lemma inject_options_method_witness :
  let ro := {| ro_method := ManyMethods ["TRACE"; "PUT"; "GET"];
               ro_url := "/items/:id"; ro_schema := VUndef; ro_mcp := None |} in
  ∃ r, Plugin.register_all 1 [ro] [] = [r]
    ∧ ∃ m, io_method (RequestHandler.inject_options (λ _, []) (λ s, s) r
                        [("id", VNum 1)])
           = Some m
           ∧ m ∈ HTTP_METHODS.
Proof.
  intros ro. eexists. split; [reflexivity|].
  apply (inject_options_method (λ _, []) (λ s, s) 1 [ro]). vm_compute. left.
Defined.

(** ** Further properties of the request handler *)

Lemma prefix_append (a b : string) : String.prefix a (a +:+ b) = true.
Proof.
  induction a as [|c a IH]; [by destruct b|].
  change (String.prefix (String c a) (String c (a +:+ b)) = true).
  cbn [String.prefix]. by destruct (ascii_dec c c).
Qed.











(** ** Further properties of the session map and the endpoints *)

(** Sessions do not interfere: opening or closing a connection under one
    identifier changes no answer to a message addressed to another. *)
Theorem post_message_other_session (Transport : Type)
    (handlePostMessage : Transport → value → option Response)
    (activeTransports : gmap string Transport) (sessionId other : string)
    (transport : Transport) (body : value) :
  sessionId ≠ other →
  Sessions.post_message handlePostMessage
    (Sessions.sse_close sessionId activeTransports) (Some other) body
  = Sessions.post_message handlePostMessage activeTransports (Some other) body
  ∧ Sessions.post_message handlePostMessage
      (Sessions.sse_connect sessionId transport activeTransports)
      (Some other) body
    = Sessions.post_message handlePostMessage activeTransports
        (Some other) body.
Proof.
  intros Hne. unfold Sessions.post_message, Sessions.sse_close,
    Sessions.sse_connect. cbn.
  by rewrite lookup_delete_ne, lookup_insert_ne.
Qed.

Lemma post_message_other_session_witness :
  let handle (transport : nat) (body : value) :=
    Some {| status := 202; payload := VNum (Z.of_nat transport) |} in
  let activeTransports := Sessions.sse_connect "a" 1 ∅ in
  Sessions.post_message handle (Sessions.sse_close "b" activeTransports)
    (Some "a") VNull
  = Sessions.post_message handle activeTransports (Some "a") VNull.
Proof.
  intros handle activeTransports.
  apply (post_message_other_session nat handle activeTransports "b" "a" 0 VNull).
  done.
Defined.

(** A message addressed to a session that has just been opened is handed
    to that session's transport, also when the identifier was in use
    before; a message without session identifier is answered 404. *)
Theorem post_message_after_connect (Transport : Type)
    (handlePostMessage : Transport → value → option Response)
    (activeTransports : gmap string Transport) (sessionId : string)
    (transport : Transport) (body : value) :
  Sessions.post_message handlePostMessage
    (Sessions.sse_connect sessionId transport activeTransports)
    (Some sessionId) body
  = default {| status := 500;
               payload := VObj [("error", VStr "Internal server error")] |}
      (handlePostMessage transport body)
  ∧ Sessions.post_message handlePostMessage activeTransports None body
    = {| status := 404;
         payload := VObj [("error", VStr "Session not found")] |}.
Proof.
  unfold Sessions.post_message, Sessions.sse_connect. cbn.
  rewrite lookup_insert_eq. split; [|done].
  by destruct (handlePostMessage transport body).
Qed.

Lemma prefix_slash_append (path suffix : string) :
  String.prefix "/" path = true → String.prefix "/" (path +:+ suffix) = true.
Proof.
  destruct path as [|c path]; [done|].
  change (String c path +:+ suffix) with (String c (path +:+ suffix)).
  cbn [String.prefix].
  destruct (ascii_dec "/" c); [|done]. intros _. by destruct (path +:+ suffix).
Qed.

Lemma normalizedMountPath_slash (options : McpPluginOptions) :
  String.prefix "/" (Plugin.normalizedMountPath options) = true.
Proof.
  unfold Plugin.normalizedMountPath.
  destruct (mountPath options) as [path|]; [|done].
  destruct (String.prefix "/" path) eqn:Hpath; [done|].
  change ("/" +:+ path) with (String "/"%char path). cbn [String.prefix].
  destruct (ascii_dec "/" "/"); [by destruct path|done].
Qed.

(** The mount path is normalized to start with a slash, a path that
    starts with one is kept, and every endpoint of the plugin lies under
    the normalized mount path. *)
Theorem endpoints_under_mount_path (options : McpPluginOptions) :
  String.prefix "/" (Plugin.normalizedMountPath options) = true
  ∧ (∀ path, mountPath options = Some path → String.prefix "/" path = true →
       Plugin.normalizedMountPath options = path)
  ∧ Forall (λ endpoint,
              String.prefix (Plugin.normalizedMountPath options) endpoint.2
              = true)
      (Plugin.endpoints options).
Proof.
  split; [apply normalizedMountPath_slash|]. split.
  - intros path Hpath Hslash. unfold Plugin.normalizedMountPath.
    by rewrite Hpath, Hslash.
  - unfold Plugin.endpoints.
    assert (String.prefix (Plugin.normalizedMountPath options)
              (Plugin.normalizedMountPath options) = true) as Hself.
    { rewrite <- (append_nil_r (Plugin.normalizedMountPath options)) at 2.
      apply prefix_append. }
    destruct (transportType options) as [[]|];
      destruct (enabled (addDebugEndpoint options)); cbn;
      repeat constructor; cbn; done || apply prefix_append.
Qed.

Lemma endpoints_under_mount_path_witness :
  let options := Plugin.defaults
                   {| opt_name := None; opt_description := None;
                      describeFullSchema := None; skipHeadRoutes := None;
                      skipOptionsRoutes := None; mountPath := Some "api/mcp";
                      filter := None; addDebugEndpoint := Some true;
                      transportType := None |} in
  Plugin.endpoints options
  = [("GET", "/api/mcp/sse"); ("POST", "/api/mcp/messages");
     ("GET", "/api/mcp/tools")]
  ∧ String.prefix "/" (Plugin.normalizedMountPath options) = true.
Proof.
  intros options. split; [reflexivity|].
  exact (proj1 (endpoints_under_mount_path options)).
Defined.
